(** * Tyler: the encrypted volume lifecycle manager

    A shallow embedding of [backend/src/services/container.js] (the
    [ContainerService] class) and of the [DELETE /primary] handler of
    [backend/src/routes/containers.js].

    The service is stateful and talks to the operating system through
    [execSync], [spawn], [fs-extra], [http.get] and timers.  The embedding
    keeps that shape:

    - the service's own fields ([lastActivity], [activityCheckInterval])
      and the timer table of the JavaScript runtime are explicit state;
    - the operating system is a [Platform]: a type of worlds with one
      function per primitive the source calls.  Every definition of the
      service is parametric in the platform, so a theorem proved for all
      platforms holds whatever the tools answer and whenever they fail;
    - a JavaScript exception is the [Thrown] outcome of a computation, and
      [try]/[catch] is [try_catch];
    - every effectful primitive appends an [Event] to a trace, which is how
      ordering properties are stated.

    Conventions.  [await] is sequencing (one lifecycle operation runs at a
    time).  [console.log] lines are diagnostics and are left out;
    [console.error] and [console.warn] are kept as events.  The sidecar
    JSON is typed: it is either unreadable or a [Config] record as
    [createContainer] writes it.  Shell commands are a datatype [Cmd] with
    one constructor per command template of the source; [render] gives the
    text the source builds. *)

From stdpp Require Import base gmap strings list pretty.
From Stdlib Require Import ZArith QArith Lia.

Local Open Scope Z_scope.

(** ** JavaScript values *)

(** An [Error] object: its [name] property and its [message]. *)
Record JsError : Type := mkJsError { errName : string; message : string }.

(** [new Error(msg)] *)
Definition Error (msg : string) : JsError :=
  {| errName := "Error"; message := msg |}.

(** How a call ends: it returns a value or throws. *)
Inductive Outcome (A : Type) : Type :=
| Returned (a : A)
| Thrown (e : JsError).
Arguments Returned {A} a.
Arguments Thrown {A} e.

(** JavaScript truthiness of a string and of a number. *)
Definition truthy_string (s : string) : bool :=
  match s with EmptyString => false | _ => true end.

Definition truthy_number (n : Z) : bool := negb (n =? 0).

(** [haystack.includes(needle)] *)
Fixpoint includes (needle haystack : string) : bool :=
  String.prefix needle haystack ||
  match haystack with
  | EmptyString => false
  | String _ rest => includes needle rest
  end.

(** [path.join(dir, file)] for a [file] that is a single path segment. *)
Definition path_join (dir file : string) : string := dir +:+ "/" +:+ file.

(** ** The persisted sidecar *)

Record ApplicationSpec : Type := mkApp {
  app_name : string;
  startupCommand : string;
  shutdownCommand : string;
  logPath : string;
  enabled : bool
}.

Record Config : Type := mkConfig {
  cfg_name : string;
  created : Z;
  applications : list ApplicationSpec;
  autoUnmountTimeout : option Z
}.

(** ** Shell commands *)

Inductive Cmd : Type :=
| TestPassphrase (password containerFile : string)
| LuksClose (deviceName : string)
| DdZero (containerFile : string) (count : Z)
| LosetupFindShow (containerFile : string)
| LuksFormat (loopDevice password : string)
| LuksOpenStdin (loopDevice deviceName password : string)
| MkfsExt4 (deviceName : string)
| LosetupDetach (loopDevice : string)
| LosetupAssoc (containerFile : string)
| LuksOpenEcho (password loopDevice deviceName : string)
| MountDev (deviceName mountPoint : string)
| Umount (mountPoint : string)
| LsMapper (deviceName : string)
| MountTable
| GitClone (url dest : string)
| NpmInstall (cwd : string)
| ChmodX (file : string)
| SedInPlace (script file : string)
| Shell (command cwd : string)
| Pgrep (pattern : string)
| Pkill9 (pattern : string).

(** The double quote character, as a string. *)
Definition dquote : string := String (Ascii.ascii_of_nat 34) EmptyString.

(** The command line the source passes to [execSync]. *)
Definition render (c : Cmd) : string :=
  match c with
  | TestPassphrase password containerFile =>
      "echo " +:+ dquote +:+ password +:+ dquote
        +:+ " | cryptsetup luksOpen --test-passphrase " +:+ containerFile
  | LuksClose deviceName => "cryptsetup luksClose " +:+ deviceName
  | DdZero containerFile count =>
      "dd if=/dev/zero of=" +:+ containerFile +:+ " bs=1M count="
        +:+ pretty count +:+ " status=progress"
  | LosetupFindShow containerFile => "losetup -f --show " +:+ containerFile
  | LuksFormat loopDevice _ =>
      "cryptsetup luksFormat " +:+ loopDevice +:+ " --type luks2 --batch-mode"
  | LuksOpenStdin loopDevice deviceName _ =>
      "cryptsetup luksOpen " +:+ loopDevice +:+ " " +:+ deviceName
  | MkfsExt4 deviceName => "mkfs.ext4 /dev/mapper/" +:+ deviceName
  | LosetupDetach loopDevice => "losetup -d " +:+ loopDevice
  | LosetupAssoc containerFile => "losetup -j " +:+ containerFile
  | LuksOpenEcho password loopDevice deviceName =>
      "echo '" +:+ password +:+ "' | cryptsetup luksOpen " +:+ loopDevice
        +:+ " " +:+ deviceName +:+ " -"
  | MountDev deviceName mountPoint =>
      "mount /dev/mapper/" +:+ deviceName +:+ " " +:+ mountPoint
  | Umount mountPoint => "umount " +:+ mountPoint
  | LsMapper deviceName => "ls -la /dev/mapper/" +:+ deviceName
  | MountTable => "mount"
  | GitClone url dest => "git clone " +:+ url +:+ " " +:+ dest
  | NpmInstall _ => "npm install"
  | ChmodX file => "chmod +x " +:+ file
  | SedInPlace script file => "sed -i '" +:+ script +:+ "' " +:+ file
  | Shell command _ => command
  | Pgrep pattern => "pgrep -f " +:+ dquote +:+ pattern +:+ dquote
  | Pkill9 pattern => "pkill -9 -f " +:+ dquote +:+ pattern +:+ dquote
  end.

(** [s.trim()]: leading and trailing white space removed. *)
Fixpoint trim_left (s : string) : string :=
  match s with
  | String c rest => if Ascii.is_space c then trim_left rest else s
  | EmptyString => EmptyString
  end.

Definition trim (s : string) : string :=
  String.rev (trim_left (String.rev (trim_left s))).

(** The longest prefix of decimal digits of [s], and what follows it. *)
Fixpoint span_digits (s : string) : string * string :=
  match s with
  | String c rest =>
      match Ascii.is_nat c with
      | Some _ => let '(ds, tl) := span_digits rest in (String c ds, tl)
      | None => (EmptyString, s)
      end
  | EmptyString => (EmptyString, EmptyString)
  end.

Fixpoint strip_prefix (p s : string) : option string :=
  match p, s with
  | EmptyString, _ => Some s
  | String a p', String b s' =>
      if Ascii.eqb a b then strip_prefix p' s' else None
  | String _ _, EmptyString => None
  end.

Definition colon : Ascii.ascii := Ascii.ascii_of_nat 58.

(** [out.match(/^(\/dev\/loop\d+):/)]: the first capture group, when the
    text starts with a loop device name followed by a colon. *)
Definition loopMatch (out : string) : option string :=
  match strip_prefix "/dev/loop" out with
  | Some rest =>
      match span_digits rest with
      | (String d ds, String c _) =>
          if Ascii.eqb c colon then Some ("/dev/loop" +:+ String d ds)
          else None
      | _ => None
      end
  | None => None
  end.

(** ** The operating system *)

(** What [http.get] does with the request of [isSillyTavernRunning]. *)
Inductive HttpOutcome : Type :=
| HttpResponse
| HttpRequestError
| HttpTimeout
| HttpThrows (e : JsError).

Record Platform : Type := mkPlatform {
  World : Type;
  (* child_process *)
  execSync : Cmd -> World -> Outcome string * World;
  spawn : string -> string -> World -> Outcome unit * World;
  (* fs-extra, reading *)
  pathExists : string -> World -> bool;
  access : string -> World -> Outcome unit;
  stat_isDirectory : string -> World -> Outcome bool;
  readJSON : string -> World -> Outcome Config;
  (* fs-extra, writing *)
  writeJSON : string -> Config -> World -> Outcome unit * World;
  ensureDir : string -> World -> Outcome unit * World;
  remove : string -> World -> Outcome unit * World;
  (* http, clock, setTimeout *)
  httpGet : string -> World -> HttpOutcome * World;
  clock : World -> Z;
  sleep : Z -> World -> World
}.

(** What the service does to the outside, in the order it does it. *)
Inductive Event : Type :=
| EvExec (c : Cmd)
| EvSpawn (command cwd : string)
| EvWriteJSON (file : string) (cfg : Config)
| EvEnsureDir (dir : string)
| EvRemove (path : string)
| EvHttpGet (url : string)
| EvSleep (ms : Z)
| EvSetInterval (id : nat) (containerName : string) (ms : Z)
| EvClearInterval (id : nat)
| EvConsoleError (text : string)
| EvConsoleWarn (text : string).

(** ** Computations *)

(** A computation over a state [Σ] that returns an [A] or throws. *)
Definition Comp (Σ A : Type) : Type := Σ -> Outcome A * Σ.

Definition ret {Σ A} (a : A) : Comp Σ A := fun s => (Returned a, s).

Definition throw {Σ A} (e : JsError) : Comp Σ A := fun s => (Thrown e, s).

Definition bind {Σ A B} (m : Comp Σ A) (k : A -> Comp Σ B) : Comp Σ B :=
  fun s =>
    match m s with
    | (Returned a, s') => k a s'
    | (Thrown e, s') => (Thrown e, s')
    end.

(** [try { body } catch (e) { handler }] *)
Definition try_catch {Σ A} (body : Comp Σ A) (handler : JsError -> Comp Σ A)
  : Comp Σ A :=
  fun s =>
    match body s with
    | (Returned a, s') => (Returned a, s')
    | (Thrown e, s') => handler e s'
    end.

Definition gets {Σ A} (f : Σ -> A) : Comp Σ A := fun s => (Returned (f s), s).

Definition modify {Σ} (f : Σ -> Σ) : Comp Σ unit := fun s => (Returned tt, f s).

(** A computation run next to a local variable of type [L], which keeps
    its value when the computation throws. *)
Definition lift {Σ L A} (m : Comp Σ A) : Comp (L * Σ) A :=
  fun '(l, s) => let '(r, s') := m s in (r, (l, s')).

Declare Scope comp_scope.
Delimit Scope comp_scope with comp.
Notation "x <- c1 ;; c2" := (bind c1 (fun x => c2))
  (at level 100, c1 at next level, right associativity) : comp_scope.
Notation "c1 ;; c2" := (bind c1 (fun _ => c2))
  (at level 100, right associativity) : comp_scope.
Local Open Scope comp_scope.

(** ** Results of the public operations *)

Record Status : Type := mkStatus {
  st_exists : bool;
  mounted : bool;
  mountPoint : option string;
  config : option Config;
  st_applications : list ApplicationSpec
}.

Record CreateResult : Type := mkCreateResult {
  cr_success : bool; cr_message : string; cr_container : string
}.

Record MountResult : Type := mkMountResult {
  mr_success : bool; mr_message : string; mr_mountPoint : string
}.

Record UnmountResult : Type := mkUnmountResult {
  ur_success : bool; ur_message : string
}.

Record AppResult : Type := mkAppResult {
  application : string; ar_success : bool; ar_message : string
}.

Record DeleteResult : Type := mkDeleteResult {
  dr_success : bool;
  dr_message : string;
  details : list string;
  warning : option string
}.

(** What an express handler sends: [res.status(n).json(body)]. *)
Inductive ResponseBody : Type :=
| ErrorBody (error : string)
| DeleteBody (result : DeleteResult).

Record Response : Type := mkResponse { status : Z; body : ResponseBody }.

(** ** The fields of the constructor *)

Definition containersPath : string := "/app/containers".
Definition dataPath : string := "/app/data".
Definition mountPath : string := "/mnt/encrypted".
Definition inactivityTimeoutMinutes : Z := 15.

Definition containerFileOf (name : string) : string :=
  path_join containersPath (name +:+ ".vc").
Definition configFileOf (name : string) : string :=
  path_join dataPath (name +:+ ".json").
Definition mountPointOf (name : string) : string := path_join mountPath name.
Definition deviceNameOf (name : string) : string := name +:+ "_crypt".

Definition sillyTavernUrl : string := "http://localhost:8000".
Definition sillyTavernRepo : string :=
  "https://github.com/SillyTavern/SillyTavern.git".
Definition nodeServer : string := "node server.js".

(** The configuration [createContainer] writes. *)
Definition defaultConfig (name : string) (now : Z) : Config :=
  {| cfg_name := name;
     created := now;
     applications :=
       [ {| app_name := "SillyTavern";
            startupCommand :=
              "cd /mnt/encrypted/" +:+ name +:+ "/sillytavern && ./start.sh";
            shutdownCommand := "pkill -f " +:+ dquote +:+ nodeServer +:+ dquote;
            logPath := "/mnt/encrypted/" +:+ name +:+ "/sillytavern/access.log";
            enabled := true |} ];
     autoUnmountTimeout := Some 15 |}.

(** [status.config?.autoUnmountTimeout], when it is truthy. *)
Definition configuredTimeout (st : Status) : option Z :=
  match config st with
  | Some c =>
      match autoUnmountTimeout c with
      | Some n => if truthy_number n then Some n else None
      | None => None
      end
  | None => None
  end.

(** [(now - lastActivity) / (1000 * 60)], over the rationals. *)
Definition inactiveMinutes (now last : Z) : Q :=
  (inject_Z (now - last) / inject_Z (1000 * 60))%Q.

(** [inactiveMinutes >= timeoutMinutes] *)
Definition timedOut (now last timeoutMinutes : Z) : bool :=
  Qle_bool (inject_Z timeoutMinutes) (inactiveMinutes now last).

(** ** The state of the service

    The fields of the [ContainerService] instance, the timers the runtime
    has scheduled for it, the world [W] of the platform, and the trace so
    far (latest event last).  A scheduled timer is recorded with the
    container name its callback passes to [checkForInactivity]. *)
Record State (W : Type) : Type := mkSt {
  lastActivity : gmap string Z;
  activityCheckInterval : option nat;
  timers : gmap nat string;
  nextTimer : nat;
  world : W;
  trace : list Event
}.
Arguments mkSt {W}.
Arguments lastActivity {W} s.
Arguments activityCheckInterval {W} s.
Arguments timers {W} s.
Arguments nextTimer {W} s.
Arguments world {W} s.
Arguments trace {W} s.

(** ** The service *)

Section Service.

Context (P : Platform).

Definition St : Type := State (World P).

Definition M (A : Type) : Type := Comp St A.

Definition with_lastActivity (f : gmap string Z -> gmap string Z) (s : St) : St :=
  mkSt (f (lastActivity s)) (activityCheckInterval s) (timers s)
       (nextTimer s) (world s) (trace s).

Definition with_interval (i : option nat) (s : St) : St :=
  mkSt (lastActivity s) i (timers s) (nextTimer s) (world s) (trace s).

Definition with_timers (f : gmap nat string -> gmap nat string) (n : nat)
    (s : St) : St :=
  mkSt (lastActivity s) (activityCheckInterval s) (f (timers s)) n
       (world s) (trace s).

Definition with_world (w : World P) (s : St) : St :=
  mkSt (lastActivity s) (activityCheckInterval s) (timers s) (nextTimer s)
       w (trace s).

Definition with_event (e : Event) (s : St) : St :=
  mkSt (lastActivity s) (activityCheckInterval s) (timers s) (nextTimer s)
       (world s) (trace s ++ [e]).

(** *** Primitives *)

Definition emit (e : Event) : M unit := modify (with_event e).

Definition on_world {A} (f : World P -> A * World P) : M A :=
  fun s => let '(a, w) := f (world s) in (Returned a, with_world w s).

Definition call_world {A} (f : World P -> Outcome A * World P) : M A :=
  fun s => let '(r, w) := f (world s) in (r, with_world w s).

Definition read_world {A} (f : World P -> Outcome A) : M A :=
  fun s => (f (world s), s).

Definition exec (c : Cmd) : M string :=
  emit (EvExec c) ;; call_world (execSync P c).

Definition spawnBash (command cwd : string) : M unit :=
  emit (EvSpawn command cwd) ;; call_world (spawn P command cwd).

Definition fs_pathExists (path : string) : M bool :=
  gets (fun s => pathExists P path (world s)).

Definition fs_access (path : string) : M unit := read_world (access P path).

Definition fs_stat_isDirectory (path : string) : M bool :=
  read_world (stat_isDirectory P path).

Definition fs_readJSON (file : string) : M Config :=
  read_world (readJSON P file).

Definition fs_writeJSON (file : string) (cfg : Config) : M unit :=
  emit (EvWriteJSON file cfg) ;; call_world (writeJSON P file cfg).

Definition fs_ensureDir (dir : string) : M unit :=
  emit (EvEnsureDir dir) ;; call_world (ensureDir P dir).

Definition fs_remove (path : string) : M unit :=
  emit (EvRemove path) ;; call_world (remove P path).

Definition newDate : M Z := gets (fun s => clock P (world s)).

(** [await new Promise(resolve => setTimeout(resolve, ms))] *)
Definition sleepFor (ms : Z) : M unit :=
  emit (EvSleep ms) ;; modify (fun s => with_world (sleep P ms (world s)) s).

Definition setInterval (containerName : string) (ms : Z) : M nat :=
  id <- gets nextTimer ;;
  emit (EvSetInterval id containerName ms) ;;
  modify (with_timers (insert id containerName) (S id)) ;;
  ret id.

Definition clearInterval (id : nat) : M unit :=
  emit (EvClearInterval id) ;;
  modify (fun s => with_timers (delete id) (nextTimer s) s).

Definition consoleError (text : string) : M unit := emit (EvConsoleError text).
Definition consoleWarn (text : string) : M unit := emit (EvConsoleWarn text).

(** *** verifyContainerPassword *)

Definition verifyContainerPassword (name password : string) : M bool :=
  let containerFile := containerFileOf name in
  ex <- fs_pathExists containerFile ;;
  if negb ex then throw (Error ("Container " +:+ name +:+ " does not exist"))
  else
    try_catch
      (exec (TestPassphrase password containerFile) ;; ret true)
      (fun _ => ret false).

(** *** Activity tracking *)

Definition recordActivity (containerName : string) : M unit :=
  now <- newDate ;;
  modify (with_lastActivity (insert containerName now)).

Definition startActivityMonitoring (containerName : string) : M unit :=
  i <- gets activityCheckInterval ;;
  match i with
  | Some id => clearInterval id
  | None => ret tt
  end ;;
  id <- setInterval containerName (30 * 1000) ;;
  modify (with_interval (Some id)).

Definition stopActivityMonitoring : M unit :=
  i <- gets activityCheckInterval ;;
  match i with
  | Some id => clearInterval id ;; modify (with_interval None)
  | None => ret tt
  end.

(** [activityMonitoringActive: !!this.activityCheckInterval], as
    [getPrimaryContainer] reports it. *)
Definition activityMonitoringActive (s : St) : bool :=
  match activityCheckInterval s with Some _ => true | None => false end.

(** *** isSillyTavernRunning *)

Definition isSillyTavernRunning : M bool :=
  emit (EvHttpGet sillyTavernUrl) ;;
  o <- on_world (httpGet P sillyTavernUrl) ;;
  match o with
  | HttpResponse => ret true
  | HttpRequestError => ret false
  | HttpTimeout => ret false
  | HttpThrows e => throw e
  end.

(** *** getContainerStatus *)

Definition getContainerStatus (name : string) : M Status :=
  let containerFile := containerFileOf name in
  let mountPoint := mountPointOf name in
  let configFile := configFileOf name in
  ex <- fs_pathExists containerFile ;;
  mc <- (if ex then
           m <- try_catch
                  (fs_access mountPoint ;;
                   isDir <- fs_stat_isDirectory mountPoint ;;
                   if isDir then
                     let deviceName := deviceNameOf name in
                     try_catch
                       (exec (LsMapper deviceName) ;;
                        mountCheck <- exec MountTable ;;
                        ret (includes ("/dev/mapper/" +:+ deviceName) mountCheck
                             && includes mountPoint mountCheck))
                       (fun _ => ret false)
                   else ret false)
                  (fun _ => ret false) ;;
           c <- try_catch
                  (c <- fs_readJSON configFile ;; ret (Some c))
                  (fun _ => ret None) ;;
           ret (m, c)
         else ret (false, None)) ;;
  let '(m, c) := mc in
  ret {| st_exists := ex;
         mounted := m;
         mountPoint := if m then Some mountPoint else None;
         config := c;
         st_applications :=
           match c with Some cfg => applications cfg | None => [] end |}.

(** *** stopApplications *)

Definition maxAttempts : nat := 10.

(** The [while (attempts < maxAttempts)] loop that waits for the process
    to go away; [remaining] is [maxAttempts - attempts].  It returns the
    final value of [attempts]. *)
Fixpoint waitTerminated (remaining attempts : nat) : M nat :=
  match remaining with
  | O => ret attempts
  | S remaining' =>
      alive <- try_catch
                 (exec (Pgrep nodeServer) ;; sleepFor 500 ;; ret true)
                 (fun _ => ret false) ;;
      if alive then waitTerminated remaining' (S attempts) else ret attempts
  end.

Definition stopOne (app : ApplicationSpec) : M AppResult :=
  try_catch
    (exec (Shell (shutdownCommand app) mountPath) ;;
     attempts <- waitTerminated maxAttempts 0 ;;
     (if (maxAttempts <=? attempts)%nat then
        try_catch (exec (Pkill9 nodeServer) ;; sleepFor 1000) (fun _ => ret tt)
      else ret tt) ;;
     ret {| application := app_name app;
            ar_success := true;
            ar_message := app_name app +:+ " stopped successfully" |})
    (fun error =>
       ret {| application := app_name app;
              ar_success := false;
              ar_message := "Failed to stop " +:+ app_name app +:+ ": "
                              +:+ message error |}).

(** The [for (const app of status.config.applications)] loop. *)
Fixpoint stopEach (apps : list ApplicationSpec) (results : list AppResult)
  : M (list AppResult) :=
  match apps with
  | [] => ret results
  | app :: rest =>
      results' <- (if truthy_string (shutdownCommand app) then
                     r <- stopOne app ;; ret (results ++ [r])
                   else ret results) ;;
      stopEach rest results'
  end.

Definition stopApplications (name : string) : M (list AppResult) :=
  status <- getContainerStatus name ;;
  match config status with
  | None => ret []
  | Some cfg =>
      results <- stopEach (applications cfg) [] ;;
      stopActivityMonitoring ;;
      modify (with_lastActivity (delete name)) ;;
      ret results
  end.

(** *** unmountContainer *)

Definition unmountSteps (name : string) : M unit :=
  let mountPoint := mountPointOf name in
  let deviceName := deviceNameOf name in
  try_catch
    (exec (Umount mountPoint) ;;
     exec (LuksClose deviceName) ;;
     try_catch
       (loopDevices <- exec (LosetupAssoc (containerFileOf name)) ;;
        match loopMatch loopDevices with
        | Some dev => exec (LosetupDetach dev) ;; ret tt
        | None => ret tt
        end)
       (fun _ => ret tt))
    (fun error =>
       consoleError ("Error during unmount steps: " +:+ message error)).

Definition unmountContainer (name : string) : M UnmountResult :=
  stopApplications name ;;
  unmountSteps name ;;
  ret {| ur_success := true;
         ur_message := "Container " +:+ name +:+ " unmounted successfully" |}.

(** *** checkForInactivity *)

(** The [while (attempts < maxAttempts)] loop of the auto-dismount that
    waits for SillyTavern to stop answering; [remaining] is
    [maxAttempts - attempts].  It returns the final value of [attempts]. *)
Fixpoint waitStopped (remaining attempts : nat) : M nat :=
  match remaining with
  | O => ret attempts
  | S remaining' =>
      sleepFor 1000 ;;
      let attempts' := S attempts in
      stop <- try_catch
                (isRunning <- isSillyTavernRunning ;; ret (negb isRunning))
                (fun _ => ret true) ;;
      if stop then ret attempts' else waitStopped remaining' attempts'
  end.

Definition warnStillRunning : string :=
  "Auto-dismount: SillyTavern may still be running after 10 seconds, proceeding with unmount anyway".

(** The body of the [try] block of the auto-dismount. *)
Definition autoDismount (containerName : string) : M unit :=
  stopApplications containerName ;;
  attempts <- waitStopped maxAttempts 0 ;;
  (if (maxAttempts <=? attempts)%nat then
     consoleWarn warnStillRunning
   else ret tt) ;;
  unmountContainer containerName ;;
  stopActivityMonitoring ;;
  modify (with_lastActivity (delete containerName)).

(** The timeout the check uses: the configured one, else the default. *)
Definition readTimeout (containerName : string) : M Z :=
  try_catch
    (status <- getContainerStatus containerName ;;
     ret (match configuredTimeout status with
          | Some t => t
          | None => inactivityTimeoutMinutes
          end))
    (fun _ => ret inactivityTimeoutMinutes).

Definition checkForInactivity (containerName : string) : M unit :=
  last <- gets (fun s => lastActivity s !! containerName) ;;
  match last with
  | None => ret tt
  | Some lastActivity =>
      timeoutMinutes <- readTimeout containerName ;;
      now <- newDate ;;
      if timedOut now lastActivity timeoutMinutes then
        try_catch
          (autoDismount containerName)
          (fun error =>
             consoleError ("Error during auto-dismount of " +:+ containerName
                           +:+ ": " +:+ message error))
      else ret tt
  end.

(** *** createContainer *)

(** The body of the [try] block: the volume is initialised. *)
Definition createSteps (name password : string) (sizeGB : Z) : M unit :=
  let containerFile := containerFileOf name in
  exec (DdZero containerFile (sizeGB * 1024)) ;;
  out <- exec (LosetupFindShow containerFile) ;;
  let loopDevice := trim out in
  exec (LuksFormat loopDevice password) ;;
  let deviceName := deviceNameOf name in
  exec (LuksOpenStdin loopDevice deviceName password) ;;
  exec (MkfsExt4 deviceName) ;;
  exec (LuksClose deviceName) ;;
  exec (LosetupDetach loopDevice) ;;
  ret tt.

(** The body of the [catch] block, up to the final [throw]. *)
Definition createCleanup (name : string) : M unit :=
  let containerFile := containerFileOf name in
  let deviceName := deviceNameOf name in
  try_catch
    (try_catch (exec (LuksClose deviceName) ;; ret tt) (fun _ => ret tt) ;;
     ex <- fs_pathExists containerFile ;;
     if ex then
       try_catch
         (loopDevices <- exec (LosetupAssoc containerFile) ;;
          match loopMatch loopDevices with
          | Some dev => exec (LosetupDetach dev) ;; ret tt
          | None => ret tt
          end)
         (fun _ => ret tt) ;;
       fs_remove containerFile
     else ret tt)
    (fun cleanupError =>
       consoleError ("Failed to cleanup after container creation failure: "
                     +:+ message cleanupError)).

Definition createContainer (name password : string) (sizeGB : Z)
  : M CreateResult :=
  let containerFile := containerFileOf name in
  let configFile := configFileOf name in
  ex <- fs_pathExists containerFile ;;
  if ex then throw (Error ("Container " +:+ name +:+ " already exists"))
  else
    let deviceName := deviceNameOf name in
    try_catch (exec (LuksClose deviceName) ;; ret tt) (fun _ => ret tt) ;;
    try_catch
      (createSteps name password sizeGB)
      (fun error =>
         consoleError ("Error creating container " +:+ name +:+ ": "
                       +:+ message error) ;;
         createCleanup name ;;
         throw (Error ("Failed to create container: " +:+ message error))) ;;
    now <- newDate ;;
    fs_writeJSON configFile (defaultConfig name now) ;;
    ret {| cr_success := true;
           cr_message := "Container " +:+ name +:+ " created successfully";
           cr_container := name |}.

(** *** setupSillyTavern and mountContainer *)

Definition setupSillyTavern (containerName mountPoint : string) : M unit :=
  let sillyTavernPath := path_join mountPoint "sillytavern" in
  ex <- fs_pathExists sillyTavernPath ;;
  if ex then ret tt
  else
    try_catch
      (exec (GitClone sillyTavernRepo sillyTavernPath) ;;
       exec (NpmInstall sillyTavernPath) ;;
       exec (ChmodX (path_join sillyTavernPath "start.sh")) ;;
       let configPath := path_join sillyTavernPath "config.yaml" in
       exec (SedInPlace "s/listen: false/listen: true/" configPath) ;;
       exec (SedInPlace "s/whitelistMode: true/whitelistMode: false/"
                        configPath) ;;
       exec (SedInPlace "s/securityOverride: false/securityOverride: true/"
                        configPath) ;;
       ret tt)
      (fun error =>
         consoleError ("Error setting up SillyTavern: " +:+ message error) ;;
         throw error).

Definition mountContainer (name password : string) : M MountResult :=
  let containerFile := containerFileOf name in
  let mountPoint := mountPointOf name in
  ex <- fs_pathExists containerFile ;;
  if negb ex then throw (Error ("Container " +:+ name +:+ " does not exist"))
  else
    fs_ensureDir mountPoint ;;
    let deviceName := deviceNameOf name in
    try_catch (exec (LuksClose deviceName) ;; ret tt) (fun _ => ret tt) ;;
    try_catch
      (out <- exec (LosetupFindShow containerFile) ;;
       let loopDevice := trim out in
       exec (LuksOpenEcho password loopDevice deviceName) ;;
       exec (MountDev deviceName mountPoint) ;;
       setupSillyTavern name mountPoint ;;
       ret {| mr_success := true;
              mr_message := "Container " +:+ name +:+ " mounted successfully";
              mr_mountPoint := mountPoint |})
      (fun error =>
         consoleError ("Error mounting container " +:+ name +:+ ": "
                       +:+ message error) ;;
         throw (Error ("Failed to mount container: " +:+ message error))).

(** *** startApplications *)

Definition startOne (app : ApplicationSpec) : M AppResult :=
  try_catch
    (spawnBash (startupCommand app) mountPath ;;
     ret {| application := app_name app;
            ar_success := true;
            ar_message := app_name app +:+ " started successfully" |})
    (fun error =>
       ret {| application := app_name app;
              ar_success := false;
              ar_message := "Failed to start " +:+ app_name app +:+ ": "
                              +:+ message error |}).

(** [app.enabled && app.startupCommand] *)
Definition startable (app : ApplicationSpec) : bool :=
  enabled app && truthy_string (startupCommand app).

(** The [for (const app of status.config.applications)] loop. *)
Fixpoint startEach (apps : list ApplicationSpec) (results : list AppResult)
  : M (list AppResult) :=
  match apps with
  | [] => ret results
  | app :: rest =>
      results' <- (if startable app then
                     r <- startOne app ;; ret (results ++ [r])
                   else ret results) ;;
      startEach rest results'
  end.

Definition startApplications (name : string) : M (list AppResult) :=
  status <- getContainerStatus name ;;
  if negb (mounted status) then
    throw (Error ("Container " +:+ name +:+ " is not mounted"))
  else
    match config status with
    | None => throw (Error ("No configuration found for container " +:+ name))
    | Some cfg =>
        results <- startEach (applications cfg) [] ;;
        (if existsb ar_success results then
           startActivityMonitoring name ;; recordActivity name
         else ret tt) ;;
        ret results
    end.

(** *** deleteContainer *)

(** [deletionResults.push(r)] *)
Definition push (r : string) : Comp (list string * St) unit :=
  modify (fun '(l, s) => (l ++ [r], s)).

(** One of the three removal steps. *)
Definition removeStep (path done missing : string)
  : Comp (list string * St) unit :=
  ex <- lift (fs_pathExists path) ;;
  if ex then lift (fs_remove path) ;; push done else push missing.

(** The function body, with [deletionResults] as its local variable. *)
Definition deleteBody (name : string) : Comp (list string * St) DeleteResult :=
  try_catch
    (try_catch
       (lift (unmountContainer name) ;; push "Container unmounted")
       (fun _ => push "Unmount skipped (not mounted)") ;;
     removeStep (containerFileOf name) "Container file deleted"
                "Container file not found (already deleted)" ;;
     removeStep (configFileOf name) "Configuration deleted"
                "Configuration not found (already deleted)" ;;
     removeStep (mountPointOf name) "Mount point removed"
                "Mount point not found (already removed)" ;;
     deletionResults <- gets fst ;;
     ret {| dr_success := true;
            dr_message := "Container " +:+ name +:+ " deleted successfully";
            details := deletionResults;
            warning := None |})
    (fun error =>
       lift (consoleError ("Error deleting container " +:+ name +:+ ": "
                           +:+ message error)) ;;
       deletionResults <- gets fst ;;
       ret {| dr_success := true;
              dr_message := "Container " +:+ name
                              +:+ " cleanup completed (with issues)";
              details := deletionResults;
              warning := Some (message error) |}).

Definition deleteContainer (name : string) : M DeleteResult :=
  fun s => let '(r, (_, s')) := deleteBody name ([], s) in (r, s').

(** *** The handler of [DELETE /primary] *)

Definition deletePrimary (password : string) : M Response :=
  try_catch
    (if negb (truthy_string password) then
       ret {| status := 400; body := ErrorBody "Password required for deletion" |}
     else
       isValidPassword <- verifyContainerPassword "primary" password ;;
       if negb isValidPassword then
         ret {| status := 401; body := ErrorBody "Invalid password" |}
       else
         result <- deleteContainer "primary" ;;
         ret {| status := 200; body := DeleteBody result |})
    (fun error => ret {| status := 500; body := ErrorBody (message error) |}).

End Service.

Arguments activityMonitoringActive {P} s.

(** ** The rest of the service, and the other routes

    [getPrimaryContainer] and [listContainers] of the service, and the
    handlers of [backend/src/routes/containers.js] other than
    [DELETE /primary].  In the objects they return, a field that is
    [null], [undefined] or left out is [None]. *)

Definition primaryContainerName : string := "primary".

(** What [getPrimaryContainer] returns: its own fields, and those of the
    status spread into it. *)
Record PrimaryContainer : Type := mkPrimaryContainer {
  pc_name : string;
  pc_file : string;
  sillyTavernRunning : bool;
  pc_lastActivity : option Z;
  minutesInactive : option Z;
  pc_activityMonitoringActive : option bool;
  pc_status : Status
}.

(** The status both fallback objects carry. *)
Definition missingStatus : Status :=
  {| st_exists := false;
     mounted := false;
     mountPoint := None;
     config := None;
     st_applications := [] |}.

(** An entry of [listContainers]: the name, the file, and the status
    spread into it. *)
Record ContainerEntry : Type := mkContainerEntry {
  ce_name : string;
  ce_file : string;
  ce_status : Status
}.

(** [file.endsWith(ext)] *)
Definition endsWith (ext file : string) : bool :=
  (String.length ext <=? String.length file)%nat
  && String.eqb
       (String.substring (String.length file - String.length ext) (String.length ext)
                  file)
       ext.

(** [path.basename(file, ext)] for a directory entry [file], which is a
    single path segment: a final [ext] is taken away. *)
Definition basename (file ext : string) : string :=
  if endsWith ext file then
    String.substring 0 (String.length file - String.length ext) file
  else file.

(** [containerNames.add(name)]: a [Set] keeps the order of insertion and
    holds a value once. *)
Definition addName (name : string) (containerNames : list string) : list string :=
  if existsb (String.eqb name) containerNames then containerNames
  else containerNames ++ [name].

(** The [for (const file of files)] loops of [listContainers]. *)
Fixpoint collect (ext : string) (files containerNames : list string)
  : list string :=
  match files with
  | [] => containerNames
  | file :: rest =>
      collect ext rest
        (if endsWith ext file then addName (basename file ext) containerNames
         else containerNames)
  end.

(** What a handler sends: [res.json(a)], with status 200, or
    [res.status(n).json({ error })]. *)
Inductive Reply (A : Type) : Type :=
| Json (a : A)
| Refused (code : Z) (error : string).
Arguments Json {A} a.
Arguments Refused {A} code error.

Section Routes.

Context (P : Platform).

(** *** getPrimaryContainer *)

Definition getPrimaryContainer : M P PrimaryContainer :=
  let name := primaryContainerName in
  try_catch
    (status <- getContainerStatus P name ;;
     running <- isSillyTavernRunning P ;;
     lastActivity <- gets (fun s => lastActivity s !! name) ;;
     minutes <- match lastActivity with
                | Some last =>
                    now <- newDate P ;; ret (Some ((now - last) / (1000 * 60)))
                | None => ret None
                end ;;
     active <- gets activityMonitoringActive ;;
     ret {| pc_name := name;
            pc_file := name +:+ ".vc";
            sillyTavernRunning := running;
            pc_lastActivity := lastActivity;
            minutesInactive := minutes;
            pc_activityMonitoringActive := Some active;
            pc_status := status |})
    (fun _ =>
       ret {| pc_name := name;
              pc_file := name +:+ ".vc";
              sillyTavernRunning := false;
              pc_lastActivity := None;
              minutesInactive := None;
              pc_activityMonitoringActive := None;
              pc_status := missingStatus |}).

(** *** The handlers

    A password that is missing from the body is the empty string (both are
    falsy); a size that is missing is [None]. *)

(** [catch (error) { res.status(500).json({ error: error.message }) }] *)
Definition serverError {A} (error : JsError) : M P (Reply A) :=
  ret (Refused 500 (message error)).

(** [GET /primary] *)
Definition getPrimary : M P (Reply PrimaryContainer) :=
  try_catch (container <- getPrimaryContainer ;; ret (Json container))
            serverError.

(** [POST /primary/create] *)
Definition postCreate (password : string) (size : option Z)
  : M P (Reply CreateResult) :=
  try_catch
    (match size with
     | Some sizeGB =>
         if negb (truthy_string password) || negb (truthy_number sizeGB) then
           ret (Refused 400 "Missing required fields: password, size")
         else
           result <- createContainer P primaryContainerName password sizeGB ;;
           ret (Json result)
     | None => ret (Refused 400 "Missing required fields: password, size")
     end)
    serverError.

(** [POST /primary/mount] *)
Definition postMount (password : string) : M P (Reply MountResult) :=
  try_catch
    (if negb (truthy_string password) then ret (Refused 400 "Password required")
     else
       result <- mountContainer P primaryContainerName password ;;
       ret (Json result))
    serverError.

(** [POST /primary/unmount] *)
Definition postUnmount : M P (Reply UnmountResult) :=
  try_catch
    (result <- unmountContainer P primaryContainerName ;; ret (Json result))
    serverError.

(** [POST /primary/start] *)
Definition postStart : M P (Reply (list AppResult)) :=
  try_catch
    (result <- startApplications P primaryContainerName ;; ret (Json result))
    serverError.

(** [POST /primary/stop] *)
Definition postStop : M P (Reply (list AppResult)) :=
  try_catch
    (result <- stopApplications P primaryContainerName ;; ret (Json result))
    serverError.

(** [POST /primary/verify-password]; the body of the answer is
    [{ valid: result }]. *)
Definition postVerifyPassword (password : string) : M P (Reply bool) :=
  try_catch
    (if negb (truthy_string password) then ret (Refused 400 "Password required")
     else
       result <- verifyContainerPassword P primaryContainerName password ;;
       ret (Json result))
    serverError.

(** [GET /primary/sillytavern-status]; the body of the answer is
    [{ running: isRunning }]. *)
Definition getSillyTavernStatus : M P (Reply bool) :=
  try_catch (isRunning <- isSillyTavernRunning P ;; ret (Json isRunning))
            serverError.

(** *** listContainers

    [readdir] is [fs.readdir]: the names of the entries of a directory. *)

Context (readdir : string -> World P -> Outcome (list string)).

Definition fs_readdir (dir : string) : M P (list string) :=
  read_world P (readdir dir).

(** The [for (const name of containerNames)] loop. *)
Fixpoint statusEach (containerNames : list string)
    (containers : list ContainerEntry) : M P (list ContainerEntry) :=
  match containerNames with
  | [] => ret containers
  | name :: rest =>
      entry <- try_catch
                 (status <- getContainerStatus P name ;;
                  ret {| ce_name := name;
                         ce_file := name +:+ ".vc";
                         ce_status := status |})
                 (fun _ =>
                    ret {| ce_name := name;
                           ce_file := name +:+ ".vc";
                           ce_status := missingStatus |}) ;;
      statusEach rest (containers ++ [entry])
  end.

Definition listContainers : M P (list ContainerEntry) :=
  containerNames <- try_catch
                      (files <- fs_readdir containersPath ;;
                       ret (collect ".vc" files []))
                      (fun _ => ret []) ;;
  containerNames <- try_catch
                      (configFiles <- fs_readdir dataPath ;;
                       ret (collect ".json" configFiles containerNames))
                      (fun _ => ret containerNames) ;;
  statusEach containerNames [].

End Routes.

(** ** A reference platform

    One concrete operating system, in which every tool does what its
    manual says and nothing fails for outside reasons.  It is used to run
    the service on concrete inputs and to state the password round trip.
    Paths live in one flat name space; a LUKS header is the passphrase it
    was formatted with. *)

Module Ideal.

Definition alookup {A} (k : string) (l : list (string * A)) : option A :=
  match find (fun kv => String.eqb k (fst kv)) l with
  | Some kv => Some (snd kv)
  | None => None
  end.

Definition aremove {A} (k : string) (l : list (string * A)) : list (string * A) :=
  List.filter (fun kv => negb (String.eqb k (fst kv))) l.

Definition aupdate {A} (k : string) (v : A) (l : list (string * A))
  : list (string * A) := (k, v) :: aremove k l.

Definition smem (k : string) (l : list string) : bool :=
  existsb (String.eqb k) l.

Definition sremove (k : string) (l : list string) : list string :=
  List.filter (fun x => negb (String.eqb k x)) l.

Definition sadd (k : string) (l : list string) : list string :=
  if smem k l then l else k :: l.

Record OS : Type := mkOS {
  files : list (string * Z);          (* regular files, size in MiB *)
  dirs : list string;
  json : list (string * Config);      (* JSON files *)
  luks : list (string * string);      (* backing file, passphrase of its header *)
  ext4 : list string;                 (* backing files with a filesystem inside *)
  loops : list (string * string);     (* loop device, backing file *)
  mapper : list (string * string);    (* open mapping, backing file *)
  mounts : list (string * string);    (* mapping, mount point *)
  running : bool;                     (* a node server.js process exists *)
  time : Z;
  locked : list string                (* paths that cannot be removed or written *)
}.

Definition setFiles v (o : OS) :=
  mkOS v (dirs o) (json o) (luks o) (ext4 o) (loops o) (mapper o) (mounts o)
       (running o) (time o) (locked o).
Definition setDirs v (o : OS) :=
  mkOS (files o) v (json o) (luks o) (ext4 o) (loops o) (mapper o) (mounts o)
       (running o) (time o) (locked o).
Definition setJson v (o : OS) :=
  mkOS (files o) (dirs o) v (luks o) (ext4 o) (loops o) (mapper o) (mounts o)
       (running o) (time o) (locked o).
Definition setLuks v (o : OS) :=
  mkOS (files o) (dirs o) (json o) v (ext4 o) (loops o) (mapper o) (mounts o)
       (running o) (time o) (locked o).
Definition setExt4 v (o : OS) :=
  mkOS (files o) (dirs o) (json o) (luks o) v (loops o) (mapper o) (mounts o)
       (running o) (time o) (locked o).
Definition setLoops v (o : OS) :=
  mkOS (files o) (dirs o) (json o) (luks o) (ext4 o) v (mapper o) (mounts o)
       (running o) (time o) (locked o).
Definition setMapper v (o : OS) :=
  mkOS (files o) (dirs o) (json o) (luks o) (ext4 o) (loops o) v (mounts o)
       (running o) (time o) (locked o).
Definition setMounts v (o : OS) :=
  mkOS (files o) (dirs o) (json o) (luks o) (ext4 o) (loops o) (mapper o) v
       (running o) (time o) (locked o).
Definition setRunning v (o : OS) :=
  mkOS (files o) (dirs o) (json o) (luks o) (ext4 o) (loops o) (mapper o)
       (mounts o) v (time o) (locked o).
Definition setTime v (o : OS) :=
  mkOS (files o) (dirs o) (json o) (luks o) (ext4 o) (loops o) (mapper o)
       (mounts o) (running o) v (locked o).

Definition ok (o : OS) : Outcome string * OS := (Returned EmptyString, o).
Definition out (text : string) (o : OS) : Outcome string * OS :=
  (Returned text, o).
Definition fail {A} (msg : string) (o : OS) : Outcome A * OS :=
  (Thrown (Error msg), o).

Definition existsPath (path : string) (o : OS) : bool :=
  match alookup path (files o) with
  | Some _ => true
  | None => smem path (dirs o) || match alookup path (json o) with
                                  | Some _ => true
                                  | None => false
                                  end
  end.

(** [path] itself or something below it. *)
Definition within (path p : string) : bool :=
  String.eqb path p || String.prefix (path +:+ "/") p.

(** *** Passphrases

    The three ways the source hands a password to cryptsetup.  Through
    [input: password + newline] cryptsetup reads the first line.  Through
    [echo] between quotes the shell rewrites some characters; a password
    with such a character is outside this model, and the model refuses
    it. *)

Definition newline : Ascii.ascii := Ascii.ascii_of_nat 10.

Fixpoint firstLine (s : string) : string :=
  match s with
  | String c rest =>
      if Ascii.eqb c newline then EmptyString else String c (firstLine rest)
  | EmptyString => EmptyString
  end.

Fixpoint avoids (bad : list nat) (s : string) : bool :=
  match s with
  | String c rest =>
      negb (existsb (Nat.eqb (Ascii.nat_of_ascii c)) bad) && avoids bad rest
  | EmptyString => true
  end.

(** quote, backslash, newline *)
Definition singleQuoteUnsafe : list nat := [39; 92; 10]%nat.
(** double quote, dollar, backquote, backslash, newline *)
Definition doubleQuoteUnsafe : list nat := [34; 36; 96; 92; 10]%nat.

Definition viaStdin (password : string) : option string :=
  Some (firstLine password).
Definition viaSingleQuotes (password : string) : option string :=
  if avoids singleQuoteUnsafe password then Some password else None.
Definition viaDoubleQuotes (password : string) : option string :=
  if avoids doubleQuoteUnsafe password then Some password else None.


(** *** The tools *)

Definition nl : string := String newline EmptyString.

(** [execSync] throws an [Error] that names the command and carries what
    the tool wrote to standard error. *)
Definition failed {A} (c : Cmd) (stderr : string) (o : OS) : Outcome A * OS :=
  fail ("Command failed: " +:+ render c +:+ nl +:+ stderr) o.

Definition loopName (n : nat) : string := "/dev/loop" +:+ pretty n.

(** The first loop device that is not in use, from number [n] on. *)
Fixpoint firstFree (fuel n : nat) (used : list (string * string)) : string :=
  match fuel with
  | O => loopName n
  | S fuel' =>
      match alookup (loopName n) used with
      | Some _ => firstFree fuel' (S n) used
      | None => loopName n
      end
  end.

(** The smallest volume a LUKS2 header fits in, in MiB. *)
Definition luksMinimum : Z := 16.

Definition isMountedDev (deviceName : string) (o : OS) : bool :=
  match alookup deviceName (mounts o) with Some _ => true | None => false end.

(** The passphrase offered is the one of the header. *)
Definition samePassphrase (offered key : string) : bool :=
  String.eqb offered key.

Definition luksOpen (c : Cmd) (pass : option string)
    (loopDevice deviceName : string) (o : OS) : Outcome string * OS :=
  match pass with
  | None => failed c "passphrase not delivered" o
  | Some pw =>
      match alookup loopDevice (loops o) with
      | None => failed c ("Device " +:+ loopDevice +:+ " does not exist or access denied.") o
      | Some file =>
          match alookup file (luks o) with
          | None => failed c ("Device " +:+ loopDevice +:+ " is not a valid LUKS device.") o
          | Some key =>
              if negb (samePassphrase pw key) then
                failed c "No key available with this passphrase." o
              else
                match alookup deviceName (mapper o) with
                | Some _ => failed c ("Device " +:+ deviceName +:+ " already exists.") o
                | None => ok (setMapper (aupdate deviceName file (mapper o)) o)
                end
          end
      end
  end.

Definition mountLine (m : string * string) : string :=
  "/dev/mapper/" +:+ fst m +:+ " on " +:+ snd m +:+ " type ext4 (rw,relatime)" +:+ nl.

Definition loopLine (file : string) (l : string * string) : string :=
  if String.eqb file (snd l) then fst l +:+ ": []: (" +:+ file +:+ ")" +:+ nl
  else EmptyString.

Definition concatMap {A} (f : A -> string) (l : list A) : string :=
  fold_right (fun a acc => f a +:+ acc) EmptyString l.

Definition pkillDefault : string := "pkill -f " +:+ dquote +:+ nodeServer +:+ dquote.

Definition exec (c : Cmd) (o : OS) : Outcome string * OS :=
  match c with
  | TestPassphrase password containerFile =>
      match viaDoubleQuotes password with
      | None => failed c "passphrase not delivered" o
      | Some pw =>
          match alookup containerFile (luks o) with
          | None => failed c ("Device " +:+ containerFile +:+ " is not a valid LUKS device.") o
          | Some key =>
              if samePassphrase pw key then ok o
              else failed c "No key available with this passphrase." o
          end
      end
  | LuksClose deviceName =>
      match alookup deviceName (mapper o) with
      | None => failed c ("Device " +:+ deviceName +:+ " is not active.") o
      | Some _ =>
          if isMountedDev deviceName o then
            failed c ("Device " +:+ deviceName +:+ " is still in use.") o
          else ok (setMapper (aremove deviceName (mapper o)) o)
      end
  | DdZero containerFile count =>
      if count <? 0 then failed c "dd: invalid number" o
      else
        ok (setFiles (aupdate containerFile count (files o))
             (setLuks (aremove containerFile (luks o))
                (setExt4 (sremove containerFile (ext4 o)) o)))
  | LosetupFindShow containerFile =>
      match alookup containerFile (files o) with
      | None => failed c "losetup: failed to set up loop device: No such file or directory" o
      | Some _ =>
          let dev := firstFree (length (loops o)) 0 (loops o) in
          out (dev +:+ nl) (setLoops (aupdate dev containerFile (loops o)) o)
      end
  | LuksFormat loopDevice password =>
      match viaStdin password, alookup loopDevice (loops o) with
      | Some pw, Some file =>
          match alookup file (files o) with
          | Some size =>
              if luksMinimum <? size then
                ok (setLuks (aupdate file pw (luks o))
                      (setExt4 (sremove file (ext4 o)) o))
              else failed c "Device is too small." o
          | None => failed c "Device does not exist or access denied." o
          end
      | _, _ => failed c "Device does not exist or access denied." o
      end
  | LuksOpenStdin loopDevice deviceName password =>
      luksOpen c (viaStdin password) loopDevice deviceName o
  | LuksOpenEcho password loopDevice deviceName =>
      luksOpen c (viaSingleQuotes password) loopDevice deviceName o
  | MkfsExt4 deviceName =>
      match alookup deviceName (mapper o) with
      | Some file => ok (setExt4 (sadd file (ext4 o)) o)
      | None => failed c "mkfs.ext4: No such file or directory" o
      end
  | LosetupDetach loopDevice =>
      match alookup loopDevice (loops o) with
      | Some _ => ok (setLoops (aremove loopDevice (loops o)) o)
      | None => failed c "losetup: No such device" o
      end
  | LosetupAssoc containerFile =>
      out (concatMap (loopLine containerFile) (loops o)) o
  | MountDev deviceName mountPoint =>
      match alookup deviceName (mapper o) with
      | Some file =>
          if smem file (ext4 o) && smem mountPoint (dirs o) then
            ok (setMounts ((deviceName, mountPoint) :: mounts o) o)
          else failed c "mount: wrong fs type or mount point does not exist." o
      | None => failed c "mount: special device does not exist." o
      end
  | Umount mountPoint =>
      match find (fun m => String.eqb mountPoint (snd m)) (mounts o) with
      | Some (dev, _) => ok (setMounts (aremove dev (mounts o)) o)
      | None => failed c ("umount: " +:+ mountPoint +:+ ": not mounted.") o
      end
  | LsMapper deviceName =>
      match alookup deviceName (mapper o) with
      | Some _ => out ("/dev/mapper/" +:+ deviceName +:+ nl) o
      | None => failed c "ls: No such file or directory" o
      end
  | MountTable => out (concatMap mountLine (mounts o)) o
  | GitClone _ dest =>
      if existsPath dest o then failed c "fatal: destination path already exists" o
      else
        ok (setDirs (sadd dest (dirs o))
             (setFiles (aupdate (path_join dest "start.sh") 1
                          (aupdate (path_join dest "config.yaml") 1 (files o))) o))
  | NpmInstall cwd =>
      if smem cwd (dirs o) then ok o else failed c "spawnSync /bin/sh ENOENT" o
  | ChmodX file | SedInPlace _ file =>
      match alookup file (files o) with
      | Some _ => ok o
      | None => failed c "No such file or directory" o
      end
  | Shell command _ =>
      if String.eqb command pkillDefault then
        if running o then ok (setRunning false o) else failed c EmptyString o
      else ok o
  | Pgrep _ => if running o then out ("4242" +:+ nl) o else failed c EmptyString o
  | Pkill9 _ =>
      if running o then ok (setRunning false o) else failed c EmptyString o
  end.

(** *** Files, processes, clock *)

Definition access (path : string) (o : OS) : Outcome unit :=
  if existsPath path o then Returned tt
  else Thrown (Error ("ENOENT: no such file or directory, access '" +:+ path +:+ "'")).

Definition stat_isDirectory (path : string) (o : OS) : Outcome bool :=
  if existsPath path o then Returned (smem path (dirs o))
  else Thrown (Error ("ENOENT: no such file or directory, stat '" +:+ path +:+ "'")).

Definition readJSON (file : string) (o : OS) : Outcome Config :=
  match alookup file (json o) with
  | Some cfg => Returned cfg
  | None => Thrown (Error ("ENOENT: no such file or directory, open '" +:+ file +:+ "'"))
  end.

Definition writeJSON (file : string) (cfg : Config) (o : OS) : Outcome unit * OS :=
  if smem file (locked o) then
    fail ("EACCES: permission denied, open '" +:+ file +:+ "'") o
  else (Returned tt, setJson (aupdate file cfg (json o)) o).

Definition ensureDir (dir : string) (o : OS) : Outcome unit * OS :=
  match alookup dir (files o) with
  | Some _ => fail ("EEXIST: file already exists, mkdir '" +:+ dir +:+ "'") o
  | None => (Returned tt, setDirs (sadd dir (dirs o)) o)
  end.

(** [fs.remove]: the path and everything below it. *)
Definition remove (path : string) (o : OS) : Outcome unit * OS :=
  if smem path (locked o) then
    fail ("EPERM: operation not permitted, unlink '" +:+ path +:+ "'") o
  else
    (Returned tt,
     setFiles (List.filter (fun kv => negb (within path (fst kv))) (files o))
       (setDirs (List.filter (fun d => negb (within path d)) (dirs o))
          (setJson (List.filter (fun kv => negb (within path (fst kv))) (json o)) o))).

Definition spawn (command cwd : string) (o : OS) : Outcome unit * OS :=
  (Returned tt, setRunning true o).

Definition httpGet (url : string) (o : OS) : HttpOutcome * OS :=
  (if running o then HttpResponse else HttpRequestError, o).

Definition sleep (ms : Z) (o : OS) : OS := setTime (time o + ms) o.

Definition platform : Platform :=
  mkPlatform OS exec spawn existsPath access stat_isDirectory readJSON
             writeJSON ensureDir remove httpGet time sleep.

(** The system as the constructor leaves it on a new installation. *)
Definition freshOS (now : Z) : OS :=
  {| files := []; dirs := [containersPath; dataPath; mountPath]; json := [];
     luks := []; ext4 := []; loops := []; mapper := []; mounts := [];
     running := false; time := now; locked := [] |}.

Definition boot (o : OS) : St platform :=
  mkSt ∅ None ∅ 0%nat o [].

End Ideal.

(** ** Scenarios on the reference platform *)

Module Scenario.

Import Ideal.


Definition lock (path : string) (s : St platform) : St platform :=
  let o := world s in
  with_world platform
    (mkOS (files o) (dirs o) (json o) (luks o) (ext4 o) (loops o) (mapper o)
          (mounts o) (running o) (time o) (path :: locked o)) s.

(** A new installation at time 0. *)
Definition installed : St platform := boot (freshOS 0).

(** The primary container was created with 5 GB and a password. *)
Definition created : St platform :=
  snd (createContainer platform "primary" "secret123" 5 installed).

(** It was then mounted, and its applications were started. *)
Definition mountedState : St platform :=
  snd (mountContainer platform "primary" "secret123" created).

Definition runningState : St platform :=
  snd (startApplications platform "primary" mountedState).


(** The container created, its backing file protected against removal. *)
Definition lockedState : St platform :=
  lock (containerFileOf "primary") created.


End Scenario.

(** * The vocabulary of the statements *)

(** [m] never throws. *)
Definition returns {Σ A} (m : Comp Σ A) : Prop :=
  forall s, exists a s', m s = (Returned a, s').

(** Every run of [m] relates the state before to the state after. *)
Definition respects {Σ} (R : Σ -> Σ -> Prop) {A} (m : Comp Σ A) : Prop :=
  forall s, R s (snd (m s)).

(** [s'] has the trace of [s] followed by events that all satisfy [Q]. *)
Definition extends_with {P} (Q : Event -> bool) (s s' : St P) : Prop :=
  exists evs, trace s' = trace s ++ evs /\ forallb Q evs = true.

(** The events [stopApplications] can emit. *)
Definition stopEvent (e : Event) : bool :=
  match e with
  | EvExec (LsMapper _) | EvExec MountTable | EvExec (Shell _ _)
  | EvExec (Pgrep _) | EvExec (Pkill9 _) | EvSleep _ | EvClearInterval _ => true
  | _ => false
  end.

Definition isUmount (e : Event) : bool :=
  match e with
  | EvExec (Umount _) => true
  | _ => false
  end.

Definition notUmount (e : Event) : bool := negb (isUmount e).

Definition anyEvent (e : Event) : bool := true.

(** [k] rounds of the wait for SillyTavern to stop answering. *)
Definition pollTrace (k : nat) : list Event :=
  concat (replicate k [EvSleep 1000; EvHttpGet sillyTavernUrl]).

(** The state after the [if (attempts >= maxAttempts)] warning of the
    auto-dismount. *)
Definition warned {P} (attempts : nat) (s : St P) : St P :=
  if (maxAttempts <=? attempts)%nat then
    with_event P (EvConsoleWarn warnStillRunning) s
  else s.



(** Every scheduled timer is the one the service holds. *)
Definition timersOwned {P} (s : St P) : Prop :=
  forall id n, timers s !! id = Some n -> activityCheckInterval s = Some id.



(** The three removal steps of [deleteContainer]: the path, and what is
    recorded when it was removed and when it was not there. *)
Definition removalSteps (name : string) : list (string * string * string) :=
  [ (containerFileOf name, "Container file deleted",
     "Container file not found (already deleted)");
    (configFileOf name, "Configuration deleted",
     "Configuration not found (already deleted)");
    (mountPointOf name, "Mount point removed",
     "Mount point not found (already removed)") ].

(** The removal steps taken in order from state [s], [completed] being the
    steps recorded so far: a path that exists is removed, and the first
    removal that throws ends the run, the steps after it being skipped.
    The result is the steps recorded, the error that ended the run if any,
    and the state reached. *)
Fixpoint removeInOrder {P} (steps : list (string * string * string))
    (completed : list string) (s : St P)
  : list string * option JsError * St P :=
  match steps with
  | [] => (completed, None, s)
  | (path, removed, missing) :: rest =>
      if pathExists P path (world s) then
        let s1 := with_event P (EvRemove path) s in
        match remove P path (world s) with
        | (Returned _, w) =>
            removeInOrder rest (completed ++ [removed]) (with_world P w s1)
        | (Thrown e, w) => (completed, Some e, with_world P w s1)
        end
      else removeInOrder rest (completed ++ [missing]) s
  end.




(** A step that does not break [timersOwned]. *)
Definition keepsOwned {P} (s s' : St P) : Prop :=
  timersOwned s -> timersOwned s'.

(** A step that leaves the monitoring state of the service as it is: the
    activity records, the interval it holds and the timers. *)
Definition monitoringKept {P} (s s' : St P) : Prop :=
  lastActivity s' = lastActivity s /\
  activityCheckInterval s' = activityCheckInterval s /\
  timers s' = timers s /\
  nextTimer s' = nextTimer s.

(** The two commands [getContainerStatus] runs; both only read. *)
Definition probeEvent (e : Event) : bool :=
  match e with
  | EvExec (LsMapper _) | EvExec MountTable => true
  | _ => false
  end.

(** [app.shutdownCommand], as the condition of [stopApplications]. *)
Definition stoppable (app : ApplicationSpec) : bool :=
  truthy_string (shutdownCommand app).

(** [r] is the result entry of [app] in [stopApplications]: it names [app]
    and either reports the stop or carries the message of the error the
    shutdown threw. *)
Definition stopped (app : ApplicationSpec) (r : AppResult) : Prop :=
  application r = app_name app /\
  ((ar_success r = true /\
    ar_message r = app_name app +:+ " stopped successfully") \/
   (ar_success r = false /\
    exists e, ar_message r = "Failed to stop " +:+ app_name app +:+ ": "
                             +:+ message e)).

(** [k] rounds of the wait for the process to go away: it was found, and
    half a second was left to it. *)
Definition termTrace (k : nat) : list Event :=
  concat (replicate k [EvExec (Pgrep nodeServer); EvSleep 500]).

(** Commands run one after the other; the first one that throws ends the
    run. *)
Fixpoint execAll {P} (cmds : list Cmd) : Comp (St P) unit :=
  match cmds with
  | [] => ret tt
  | c :: rest => exec P c ;; execAll rest
  end.

(** The commands that install SillyTavern in [sillyTavernPath]. *)
Definition installCommands (sillyTavernPath : string) : list Cmd :=
  let configPath := path_join sillyTavernPath "config.yaml" in
  [ GitClone sillyTavernRepo sillyTavernPath;
    NpmInstall sillyTavernPath;
    ChmodX (path_join sillyTavernPath "start.sh");
    SedInPlace "s/listen: false/listen: true/" configPath;
    SedInPlace "s/whitelistMode: true/whitelistMode: false/" configPath;
    SedInPlace "s/securityOverride: false/securityOverride: true/" configPath ].

(** The run of [cmds] from the world [w]: the commands that were run, and
    the error that ended the run if one threw. *)
Fixpoint runAll (P : Platform) (cmds : list Cmd) (w : World P)
  : list Cmd * option JsError :=
  match cmds with
  | [] => ([], None)
  | c :: rest =>
      match execSync P c w with
      | (Returned _, w') =>
          let '(ran, failure) := runAll P rest w' in (c :: ran, failure)
      | (Thrown e, _) => ([c], Some e)
      end
  end.

(** An event that releases nothing: no mapping is closed, no loop device
    is detached, nothing is unmounted and nothing is removed. *)
Definition releasesNothing (e : Event) : bool :=
  match e with
  | EvExec (LuksClose _) | EvExec (LosetupDetach _) | EvExec (Umount _)
  | EvRemove _ => false
  | _ => true
  end.

(** What a handler answers after a call of the service: the result with
    status 200 when the call returned, the message of the error with
    status 500 when it threw. *)
Definition reply {P A} (r : Outcome A * St P) : Outcome (Reply A) * St P :=
  match r with
  | (Returned a, s') => (Returned (Json a), s')
  | (Thrown e, s') => (Returned (Refused 500 (message e)), s')
  end.

(** Every character of [s] is a decimal digit. *)
Fixpoint allDigits (s : string) : bool :=
  match s with
  | String c rest =>
      match Ascii.is_nat c with
      | Some _ => allDigits rest
      | None => false
      end
  | EmptyString => true
  end.

(** * Reasoning about computations *)

Section Computations.

Context {Σ : Type}.

Lemma returns_ret {A} (a : A) : returns (ret a : Comp Σ A).
Proof. intros s. exists a, s. reflexivity. Qed.

Lemma returns_gets {A} (f : Σ -> A) : returns (gets f).
Proof. intros s. exists (f s), s. reflexivity. Qed.

Lemma returns_modify (f : Σ -> Σ) : returns (modify f).
Proof. intros s. exists tt, (f s). reflexivity. Qed.

Lemma returns_bind {A B} (m : Comp Σ A) (k : A -> Comp Σ B) :
  returns m -> (forall a, returns (k a)) -> returns (bind m k).
Proof.
  intros Hm Hk s. destruct (Hm s) as (a & s' & E).
  destruct (Hk a s') as (b & s'' & E'). exists b, s''.
  unfold bind. rewrite E. exact E'.
Qed.

Lemma returns_try_catch {A} (m : Comp Σ A) (h : JsError -> Comp Σ A) :
  (forall e, returns (h e)) -> returns (try_catch m h).
Proof.
  intros Hh s. unfold try_catch. destruct (m s) as [[a|e] s'].
  - exists a, s'. reflexivity.
  - apply Hh.
Qed.

Lemma returns_if {A} (b : bool) (m1 m2 : Comp Σ A) :
  returns m1 -> returns m2 -> returns (if b then m1 else m2).
Proof. destruct b; auto. Qed.

Section Relation.

Context (R : Σ -> Σ -> Prop) `{!Reflexive R} `{!Transitive R}.

Lemma respects_ret {A} (a : A) : respects R (ret a).
Proof. intros s. simpl. reflexivity. Qed.

Lemma respects_throw {A} (e : JsError) : respects R (@throw Σ A e).
Proof. intros s. simpl. reflexivity. Qed.

Lemma respects_gets {A} (f : Σ -> A) : respects R (gets f).
Proof. intros s. simpl. reflexivity. Qed.

Lemma respects_bind {A B} (m : Comp Σ A) (k : A -> Comp Σ B) :
  respects R m -> (forall a, respects R (k a)) -> respects R (bind m k).
Proof.
  intros Hm Hk s. unfold bind. specialize (Hm s).
  destruct (m s) as [[a|e] s']; simpl in *.
  - transitivity s'; [exact Hm | apply Hk].
  - exact Hm.
Qed.

Lemma respects_try_catch {A} (m : Comp Σ A) (h : JsError -> Comp Σ A) :
  respects R m -> (forall e, respects R (h e)) -> respects R (try_catch m h).
Proof.
  intros Hm Hh s. unfold try_catch. specialize (Hm s).
  destruct (m s) as [[a|e] s']; simpl in *.
  - exact Hm.
  - transitivity s'; [exact Hm | apply Hh].
Qed.

Lemma respects_if {A} (b : bool) (m1 m2 : Comp Σ A) :
  respects R m1 -> respects R m2 -> respects R (if b then m1 else m2).
Proof. destruct b; auto. Qed.

End Relation.

End Computations.

Create HintDb comp discriminated.

#[export] Hint Resolve returns_ret returns_gets returns_modify returns_bind
  returns_try_catch returns_if : comp.
#[export] Hint Resolve respects_ret respects_throw respects_gets respects_bind
  respects_try_catch respects_if : comp.

(** * Facts about the service, on every platform *)

Section ServiceFacts.

Context (P : Platform).

(** ** What never throws *)

Ltac returns_step :=
  first
    [ apply returns_ret | apply returns_gets | apply returns_modify
    | apply returns_try_catch | apply returns_bind | apply returns_if
    | match goal with
      | |- returns (match ?x with _ => _ end) => destruct x
      | |- returns (let '(_, _) := ?x in _) => destruct x
      | |- forall _, _ => intro
      end ].

Ltac returns_auto := repeat returns_step; eauto with comp.

Lemma returns_emit e : returns (emit P e).
Proof. unfold emit. returns_auto. Qed.

Lemma returns_on_world {A} (f : World P -> A * World P) : returns (on_world P f).
Proof.
  intros s. unfold on_world. destruct (f (world s)) as [a w]. eauto.
Qed.

Lemma returns_fs_pathExists path : returns (fs_pathExists P path).
Proof. unfold fs_pathExists. returns_auto. Qed.

Lemma returns_newDate : returns (newDate P).
Proof. unfold newDate. returns_auto. Qed.

Hint Resolve returns_emit returns_on_world returns_fs_pathExists
  returns_newDate : comp.

Lemma returns_sleepFor ms : returns (sleepFor P ms).
Proof. unfold sleepFor. returns_auto. Qed.

Lemma returns_consoleError text : returns (consoleError P text).
Proof. unfold consoleError. returns_auto. Qed.

Lemma returns_consoleWarn text : returns (consoleWarn P text).
Proof. unfold consoleWarn. returns_auto. Qed.

Lemma returns_setInterval name ms : returns (setInterval P name ms).
Proof. unfold setInterval. returns_auto. Qed.

Lemma returns_clearInterval id : returns (clearInterval P id).
Proof. unfold clearInterval. returns_auto. Qed.

Hint Resolve returns_sleepFor returns_consoleError returns_consoleWarn
  returns_setInterval returns_clearInterval : comp.

Lemma returns_recordActivity name : returns (recordActivity P name).
Proof. unfold recordActivity. returns_auto. Qed.

Lemma returns_startActivityMonitoring name :
  returns (startActivityMonitoring P name).
Proof. unfold startActivityMonitoring. returns_auto. Qed.

Lemma returns_stopActivityMonitoring : returns (stopActivityMonitoring P).
Proof. unfold stopActivityMonitoring. returns_auto. Qed.

Hint Resolve returns_recordActivity returns_startActivityMonitoring
  returns_stopActivityMonitoring : comp.

Lemma returns_getContainerStatus name : returns (getContainerStatus P name).
Proof. unfold getContainerStatus. returns_auto. Qed.

Hint Resolve returns_getContainerStatus : comp.

Lemma returns_waitTerminated remaining attempts :
  returns (waitTerminated P remaining attempts).
Proof.
  revert attempts. induction remaining as [|r IH]; intros attempts; simpl.
  - returns_auto.
  - returns_auto.
Qed.

Hint Resolve returns_waitTerminated : comp.

Lemma returns_stopOne app : returns (stopOne P app).
Proof. unfold stopOne. returns_auto. Qed.

Hint Resolve returns_stopOne : comp.

Lemma returns_stopEach apps results : returns (stopEach P apps results).
Proof.
  revert results. induction apps as [|app rest IH]; intros results; simpl;
    returns_auto.
Qed.

Hint Resolve returns_stopEach : comp.

Lemma returns_stopApplications name : returns (stopApplications P name).
Proof. unfold stopApplications. returns_auto. Qed.

Hint Resolve returns_stopApplications : comp.

Lemma returns_unmountSteps name : returns (unmountSteps P name).
Proof. unfold unmountSteps. returns_auto. Qed.

Hint Resolve returns_unmountSteps : comp.

Lemma returns_unmountContainer name : returns (unmountContainer P name).
Proof. unfold unmountContainer. returns_auto. Qed.

Hint Resolve returns_unmountContainer : comp.

Lemma returns_waitStopped remaining attempts :
  returns (waitStopped P remaining attempts).
Proof.
  revert attempts. induction remaining as [|r IH]; intros attempts; simpl;
    returns_auto.
Qed.

Hint Resolve returns_waitStopped : comp.

Lemma returns_autoDismount name : returns (autoDismount P name).
Proof. unfold autoDismount. returns_auto. Qed.

Lemma returns_readTimeout name : returns (readTimeout P name).
Proof. unfold readTimeout. returns_auto. Qed.

Hint Resolve returns_autoDismount returns_readTimeout : comp.

Lemma returns_checkForInactivity name : returns (checkForInactivity P name).
Proof. unfold checkForInactivity. returns_auto. Qed.

Lemma returns_createCleanup name : returns (createCleanup P name).
Proof. unfold createCleanup. returns_auto. Qed.

Lemma returns_startOne app : returns (startOne P app).
Proof. unfold startOne. returns_auto. Qed.

Hint Resolve returns_createCleanup returns_startOne : comp.

Lemma returns_startEach apps results : returns (startEach P apps results).
Proof.
  revert results. induction apps as [|app rest IH]; intros results; simpl;
    returns_auto.
Qed.

Hint Resolve returns_startEach returns_checkForInactivity : comp.

(** ** Traces only grow *)

#[local] Instance extends_with_refl Q : Reflexive (@extends_with P Q).
Proof. intros s. exists []. split; [now rewrite app_nil_r | reflexivity]. Qed.

#[local] Instance extends_with_trans Q : Transitive (@extends_with P Q).
Proof.
  intros s1 s2 s3 (e1 & E1 & Q1) (e2 & E2 & Q2). exists (e1 ++ e2). split.
  - rewrite E2, E1. now rewrite app_assoc.
  - rewrite forallb_app, Q1, Q2. reflexivity.
Qed.

Lemma extends_with_same_trace Q (s s' : St P) :
  trace s' = trace s -> extends_with Q s s'.
Proof. intros E. exists []. split; [now rewrite app_nil_r | reflexivity]. Qed.

Lemma emit_extends Q e : Q e = true -> respects (extends_with Q) (emit P e).
Proof.
  intros HQ s. exists [e]. split; [reflexivity | simpl; now rewrite HQ].
Qed.

Lemma call_world_extends Q {A} (f : World P -> Outcome A * World P) :
  respects (extends_with Q) (call_world P f).
Proof.
  intros s. apply extends_with_same_trace. unfold call_world.
  destruct (f (world s)); reflexivity.
Qed.

Lemma on_world_extends Q {A} (f : World P -> A * World P) :
  respects (extends_with Q) (on_world P f).
Proof.
  intros s. apply extends_with_same_trace. unfold on_world.
  destruct (f (world s)); reflexivity.
Qed.

Lemma read_world_extends Q {A} (f : World P -> Outcome A) :
  respects (extends_with Q) (read_world P f).
Proof. intros s. apply extends_with_same_trace. reflexivity. Qed.

Lemma modify_extends Q (f : St P -> St P) :
  (forall s, trace (f s) = trace s) -> respects (extends_with Q) (modify f).
Proof. intros Hf s. apply extends_with_same_trace. apply Hf. Qed.

Ltac extends_step HQ :=
  first
    [ match goal with
      | |- Reflexive _ => tc_solve
      | |- Transitive _ => tc_solve
      end
    | apply respects_ret
    | apply respects_throw
    | apply respects_gets
    | apply call_world_extends | apply on_world_extends
    | apply read_world_extends
    | apply modify_extends; intros ?; reflexivity
    | apply emit_extends; first [reflexivity | apply HQ; reflexivity]
    | apply respects_try_catch
    | apply respects_bind
    | apply respects_if
    | match goal with
      | |- respects _ (match ?x with _ => _ end) => destruct x
      | |- respects _ (let '(_, _) := ?x in _) => destruct x
      | |- forall _, _ => intro
      end ].

Ltac extends_auto HQ := repeat extends_step HQ; eauto with comp.

Section StopEvents.

Context (Q : Event -> bool) (HQ : forall e, stopEvent e = true -> Q e = true).

Lemma getContainerStatus_extends name :
  respects (extends_with Q) (getContainerStatus P name).
Proof.
  unfold getContainerStatus, fs_pathExists, fs_access, fs_stat_isDirectory,
    fs_readJSON, exec.
  extends_auto HQ.
Qed.

Lemma waitTerminated_extends remaining attempts :
  respects (extends_with Q) (waitTerminated P remaining attempts).
Proof.
  revert attempts. induction remaining as [|r IH]; intros attempts; simpl;
    unfold exec, sleepFor; extends_auto HQ.
Qed.

Lemma stopOne_extends app : respects (extends_with Q) (stopOne P app).
Proof.
  pose proof waitTerminated_extends.
  unfold stopOne, exec, sleepFor. extends_auto HQ.
Qed.

Lemma stopEach_extends apps results :
  respects (extends_with Q) (stopEach P apps results).
Proof.
  pose proof stopOne_extends.
  revert results. induction apps as [|app rest IH]; intros results; simpl;
    extends_auto HQ.
Qed.

Lemma stopActivityMonitoring_extends :
  respects (extends_with Q) (stopActivityMonitoring P).
Proof. unfold stopActivityMonitoring, clearInterval. extends_auto HQ. Qed.

Lemma stopApplications_extends name :
  respects (extends_with Q) (stopApplications P name).
Proof.
  pose proof getContainerStatus_extends. pose proof stopEach_extends.
  pose proof stopActivityMonitoring_extends.
  unfold stopApplications. extends_auto HQ.
Qed.

End StopEvents.

Lemma stopEvent_notUmount e : stopEvent e = true -> notUmount e = true.
Proof.
  intros H. destruct e as [c| | | | | | | | | |]; try destruct c;
    simpl in *; first [reflexivity | discriminate].
Qed.

Lemma anyEvent_true (Q : Event -> bool) e : Q e = true -> anyEvent e = true.
Proof. reflexivity. Qed.

Lemma extends_with_run Q {A} (m : Comp (St P) A) s r s' :
  respects (extends_with Q) m -> m s = (r, s') -> extends_with Q s s'.
Proof. intros H E. specialize (H s). now rewrite E in H. Qed.

(** ** unmountContainer *)

Lemma unmountSteps_trace name s :
  exists s' post,
    unmountSteps P name s = (Returned tt, s') /\
    trace s' = trace s ++ EvExec (Umount (mountPointOf name)) :: post.
Proof.
  destruct (returns_unmountSteps name s) as ([] & s' & E). exists s'.
  set (ev := EvExec (Umount (mountPointOf name))).
  assert (H : extends_with anyEvent (with_event P ev s) s').
  { revert E. unfold unmountSteps, exec.
    set (rest := fun _ : string => _).
    set (handler := fun error : JsError => _).
    intros E.
    assert (R : respects (extends_with anyEvent)
                  (try_catch (bind (call_world P (execSync P (Umount (mountPointOf name)))) rest) handler)).
    { subst rest handler. unfold exec, consoleError.
      extends_auto (anyEvent_true anyEvent). }
    eapply extends_with_run; [exact R|]. exact E. }
  destruct H as (evs & H & _). exists evs. split; [exact E|].
  rewrite H. simpl. now rewrite <- app_assoc.
Qed.

Lemma bind_returned {A B} (m : Comp (St P) A) (k : A -> Comp (St P) B) s a s' :
  m s = (Returned a, s') -> bind m k s = k a s'.
Proof. intros E. unfold bind. now rewrite E. Qed.

Lemma waitStopped_spec remaining attempts s :
  exists k s',
    waitStopped P remaining attempts s = (Returned (attempts + k)%nat, s') /\
    (k <= remaining)%nat /\ ((0 < remaining)%nat -> (0 < k)%nat) /\
    trace s' = trace s ++ pollTrace k.
Proof.
  revert attempts s. induction remaining as [|r IH]; intros attempts s.
  - exists 0%nat, s. simpl. rewrite Nat.add_0_r, app_nil_r. repeat split; lia.
  - simpl. unfold sleepFor, isSillyTavernRunning, emit, modify, on_world, bind,
      try_catch, ret, throw. simpl.
    destruct (httpGet P sillyTavernUrl _) as [o w] eqn:Eo.
    set (s1 := with_world P w _).
    assert (T1 : trace s1 = trace s ++ pollTrace 1).
    { subst s1. simpl. now rewrite <- app_assoc. }
    destruct o; simpl;
      try (exists 1%nat, s1; rewrite Nat.add_1_r;
           repeat split; [lia | lia | exact T1]).
    destruct (IH (S attempts) s1) as (k & s' & E & Hk & _ & T).
    exists (S k), s'. rewrite E, T, T1. replace (attempts + S k)%nat with (S attempts + k)%nat by lia.
    repeat split; try lia.
    rewrite <- app_assoc. f_equal.
Qed.

Lemma waitTerminated_bounded remaining attempts s :
  exists j s' evs,
    waitTerminated P remaining attempts s = (Returned (attempts + j)%nat, s') /\
    (j <= remaining)%nat /\
    trace s' = trace s ++ evs /\
    forallb stopEvent evs = true /\
    (length evs <= 2 * remaining)%nat.
Proof.
  revert attempts s. induction remaining as [|r IH]; intros attempts s.
  - exists 0%nat, s, []. simpl. rewrite Nat.add_0_r, app_nil_r.
    repeat split; lia.
  - simpl. unfold exec, sleepFor, emit, modify, call_world, bind, try_catch,
      ret. simpl.
    destruct (execSync P (Pgrep nodeServer) (world s)) as [[o|e] w]; simpl.
    + set (s1 := with_world P _ _).
      destruct (IH (S attempts) s1) as (j & s' & evs & E & Hj & T & Q & L).
      exists (S j), s', (EvExec (Pgrep nodeServer) :: EvSleep 500 :: evs).
      rewrite E, T. subst s1. simpl.
      replace (attempts + S j)%nat with (S attempts + j)%nat by lia.
      repeat split; try lia; [now rewrite <- !app_assoc | exact Q].
    + exists 0%nat, (with_world P w (with_event P (EvExec (Pgrep nodeServer)) s)),
        [EvExec (Pgrep nodeServer)].
      rewrite Nat.add_0_r. simpl. repeat split; lia.
Qed.

(** ** stopActivityMonitoring *)

Lemma stopActivityMonitoring_spec s :
  exists s',
    stopActivityMonitoring P s = (Returned tt, s') /\
    activityCheckInterval s' = None /\
    lastActivity s' = lastActivity s /\
    world s' = world s /\
    timers s' = match activityCheckInterval s with
                | Some id => delete id (timers s)
                | None => timers s
                end /\
    trace s' = trace s ++ match activityCheckInterval s with
                          | Some id => [EvClearInterval id]
                          | None => []
                          end.
Proof.
  unfold stopActivityMonitoring, bind, gets.
  destruct (activityCheckInterval s) as [id|] eqn:E.
  - eexists. split; [reflexivity|]. simpl. repeat split; reflexivity.
  - exists s. simpl. rewrite app_nil_r. repeat split; try reflexivity. exact E.
Qed.

(** ** The auto-dismount sequence *)

Lemma autoDismount_run name s :
  exists rs sa k sb u sc sd,
    stopApplications P name s = (Returned rs, sa) /\
    waitStopped P maxAttempts 0 sa = (Returned k, sb) /\
    (1 <= k <= maxAttempts)%nat /\
    trace sb = trace sa ++ pollTrace k /\
    unmountContainer P name (warned k sb) = (Returned u, sc) /\
    stopActivityMonitoring P sc = (Returned tt, sd) /\
    autoDismount P name s =
      (Returned tt, with_lastActivity P (delete name) sd).
Proof.
  destruct (returns_stopApplications name s) as (rs & sa & E1).
  destruct (waitStopped_spec maxAttempts 0 sa) as (k & sb & E2 & Hk & Hk' & T2).
  change (0 + k)%nat with k in E2.
  destruct (returns_unmountContainer name (warned k sb)) as (u & sc & E3).
  destruct (stopActivityMonitoring_spec sc) as (sd & E4 & _).
  exists rs, sa, k, sb, u, sc, sd. repeat split; try assumption.
  - apply Hk'. unfold maxAttempts. lia.
  - unfold autoDismount.
    erewrite bind_returned by exact E1. erewrite bind_returned by exact E2.
    assert (Ew : (if (maxAttempts <=? k)%nat then
                    consoleWarn P warnStillRunning
                  else ret tt) sb = (Returned tt, warned k sb)).
    { unfold warned. destruct (maxAttempts <=? k)%nat; reflexivity. }
    erewrite bind_returned by exact Ew.
    erewrite bind_returned by exact E3.
    erewrite bind_returned by exact E4. reflexivity.
Qed.

Lemma warned_extends k (s : St P) : extends_with notUmount s (warned k s).
Proof.
  unfold warned. destruct (maxAttempts <=? k)%nat; [|reflexivity].
  exists [EvConsoleWarn warnStillRunning]. split; reflexivity.
Qed.


(** Claim C6.  Whatever the state of the container and of the system,
    mounted or not, [unmountContainer] returns the success result (it never
    throws), and so does a second call made right after the first: the
    failure of [umount] on a container that is not mounted is caught
    inside. *)
Theorem unmountContainer_idempotent name s :
  let success :=
    {| ur_success := true;
       ur_message := "Container " +:+ name +:+ " unmounted successfully" |} in
  exists s1 s2,
    unmountContainer P name s = (Returned success, s1) /\
    unmountContainer P name s1 = (Returned success, s2).
Proof.
  assert (H : forall s0, exists s', unmountContainer P name s0 =
            (Returned {| ur_success := true;
                         ur_message := "Container " +:+ name +:+ " unmounted successfully" |}, s')).
  { intros s0. unfold unmountContainer, bind.
    destruct (returns_stopApplications name s0) as (rs & s1 & E1). rewrite E1.
    destruct (returns_unmountSteps name s1) as ([] & s2 & E2). rewrite E2.
    exists s2. reflexivity. }
  intros success. destruct (H s) as (s1 & E1). destruct (H s1) as (s2 & E2).
  exists s1, s2. split; assumption.
Qed.

(** Claim C10.  When [lastActivity] has no entry for the container,
    [checkForInactivity] returns at once and leaves everything as it was:
    the fields of the service, the timers, the world and the trace (so no
    application is stopped and nothing is unmounted). *)
Theorem checkForInactivity_without_record name s :
  lastActivity s !! name = None ->
  checkForInactivity P name s = (Returned tt, s).
Proof.
  intros H. unfold checkForInactivity, bind, gets. now rewrite H.
Qed.

Lemma unmountContainer_trace name s :
  exists rs s1 u s2 post,
    stopApplications P name s = (Returned rs, s1) /\
    extends_with notUmount s s1 /\
    unmountContainer P name s = (Returned u, s2) /\
    trace s2 = trace s1 ++ EvExec (Umount (mountPointOf name)) :: post.
Proof.
  destruct (returns_stopApplications name s) as (rs & s1 & E1).
  destruct (unmountSteps_trace name s1) as (s2 & post & E2 & T2).
  eexists rs, s1, _, s2, post. repeat split; [exact E1 | | | exact T2].
  - eapply extends_with_run; [|exact E1].
    apply stopApplications_extends, stopEvent_notUmount.
  - unfold unmountContainer.
    erewrite bind_returned by exact E1. erewrite bind_returned by exact E2.
    reflexivity.
Qed.

(** Claim C3.  Manual path: [unmountContainer] runs [stopApplications] to
    its end (state [s1]), during which no [umount] is issued, and the next
    event after it is the [umount].  Automatic path: [autoDismount] runs
    [stopApplications] to its end, then the wait for SillyTavern, which
    makes between one and [maxAttempts] rounds of sleep and probe, and only
    after that wait has returned (state [s2]) is a [umount] issued.  The
    wait inside [stopApplications] is bounded as well: it makes at most
    [remaining] rounds. *)
Theorem stop_completes_before_umount name s :
  (exists rs s1 u s2 post,
     stopApplications P name s = (Returned rs, s1) /\
     extends_with notUmount s s1 /\
     unmountContainer P name s = (Returned u, s2) /\
     trace s2 = trace s1 ++ EvExec (Umount (mountPointOf name)) :: post)
  /\
  (exists rs s1 k s2 s3 mid post,
     stopApplications P name s = (Returned rs, s1) /\
     extends_with notUmount s s1 /\
     waitStopped P maxAttempts 0 s1 = (Returned k, s2) /\
     (1 <= k <= maxAttempts)%nat /\
     trace s2 = trace s1 ++ pollTrace k /\
     autoDismount P name s = (Returned tt, s3) /\
     forallb notUmount mid = true /\
     trace s3 = trace s2 ++ mid ++ EvExec (Umount (mountPointOf name)) :: post)
  /\
  (forall remaining attempts s0,
     exists j s' evs,
       waitTerminated P remaining attempts s0
         = (Returned (attempts + j)%nat, s') /\
       (j <= remaining)%nat /\
       trace s' = trace s0 ++ evs /\
       forallb stopEvent evs = true /\
       (length evs <= 2 * remaining)%nat).
Proof.
  split; [apply unmountContainer_trace|]. split; [|apply waitTerminated_bounded].
  destruct (autoDismount_run name s)
    as (rs & s1 & k & s2 & u & sc & sd & E1 & E2 & Hk & T2 & E3 & E4 & E5).
  destruct (unmountContainer_trace name (warned k s2))
    as (rs' & sm & u' & sc' & post & E1' & (ev4 & T4 & Q4) & E3' & T3).
  rewrite E3 in E3'. injection E3' as _ <-.
  destruct (warned_extends k s2) as (evw & Tw & Qw).
  destruct (stopActivityMonitoring_spec sc) as (sd' & E4' & _ & _ & _ & _ & T6).
  rewrite E4 in E4'. injection E4' as <-.
  exists rs, s1, k, s2, (with_lastActivity P (delete name) sd), (evw ++ ev4),
    (post ++ match activityCheckInterval sc with
             | Some id => [EvClearInterval id]
             | None => []
             end).
  repeat split; try assumption; try lia.
  - eapply extends_with_run; [|exact E1].
    apply stopApplications_extends, stopEvent_notUmount.
  - rewrite forallb_app, Qw, Q4. reflexivity.
  - simpl. rewrite T6, T3, T4, Tw. rewrite <- !app_assoc. reflexivity.
Qed.



(** ** startApplications *)



(** ** verifyContainerPassword *)

(** Claim C4, as amended.  When the backing file exists,
    [verifyContainerPassword] runs the unlock test and returns a boolean:
    [true] when the test command succeeds and [false] when it fails, for
    whatever reason; it does not throw.  When the backing file does not
    exist it throws the does-not-exist error and runs nothing. *)
Theorem verifyContainerPassword_spec name password s :
  let containerFile := containerFileOf name in
  let test := TestPassphrase password containerFile in
  if pathExists P containerFile (world s) then
    exists valid s',
      verifyContainerPassword P name password s = (Returned valid, s') /\
      valid = match fst (execSync P test (world s)) with
              | Returned _ => true
              | Thrown _ => false
              end /\
      trace s' = trace s ++ [EvExec test]
  else
    verifyContainerPassword P name password s =
      (Thrown (Error ("Container " +:+ name +:+ " does not exist")), s).
Proof.
  cbv zeta. unfold verifyContainerPassword.
  erewrite bind_returned by reflexivity. cbv beta.
  destruct (pathExists P (containerFileOf name) (world s)); simpl;
    [|reflexivity].
  unfold try_catch, exec, emit, modify, call_world, bind, ret. simpl.
  destruct (execSync P _ (world s)) as [[o|e] w]; simpl;
    eexists _, _; repeat split.
Qed.

(** ** Monitoring and the activity record *)

(** Claim C5, as amended.  [stopActivityMonitoring] cancels the scheduled
    check: afterwards [activityCheckInterval] is null, so monitoring is
    reported inactive, and, the service holding the only timer, no timer is
    left.  It does not touch [lastActivity].  The record is removed by its
    callers: [stopApplications], when the container has a readable
    configuration, stops the monitoring and then deletes the entry of the
    container; without a configuration it returns before doing either. *)
Theorem stopActivityMonitoring_effect (s : St P) :
  timersOwned s ->
  (exists s',
     stopActivityMonitoring P s = (Returned tt, s') /\
     activityMonitoringActive s' = false /\
     timers s' = ∅ /\
     lastActivity s' = lastActivity s) /\
  (forall name,
     exists status s1 results s2,
       getContainerStatus P name s = (Returned status, s1) /\
       stopApplications P name s = (Returned results, s2) /\
       match config status with
       | Some _ =>
           activityMonitoringActive s2 = false /\
           lastActivity s2 !! name = None
       | None => s2 = s1 /\ results = []
       end).
Proof.
  intros Hown. split.
  - destruct (stopActivityMonitoring_spec s) as (s' & E & Hi & Hl & _ & Ht & _).
    exists s'. repeat split; try assumption.
    + unfold activityMonitoringActive. now rewrite Hi.
    + rewrite Ht. apply map_eq. intros i. rewrite lookup_empty.
      destruct (activityCheckInterval s) as [id|] eqn:Ei.
      * destruct (decide (i = id)) as [->|Hne].
        -- apply lookup_delete_eq.
        -- rewrite lookup_delete_ne by congruence.
           destruct (timers s !! i) as [n|] eqn:En; [|reflexivity].
           apply Hown in En. congruence.
      * destruct (timers s !! i) as [n|] eqn:En; [|reflexivity].
        apply Hown in En. congruence.
  - intros name.
    destruct (returns_getContainerStatus name s) as (status & s1 & Es).
    exists status, s1. unfold stopApplications.
    erewrite bind_returned by exact Es.
    destruct (config status) as [cfg|].
    + destruct (returns_stopEach (applications cfg) [] s1) as (rs & sa & Ea).
      destruct (stopActivityMonitoring_spec sa) as (sb & Eb & Hi & _).
      exists rs, (with_lastActivity P (delete name) sb).
      split; [exact Es|]. split.
      * erewrite bind_returned by exact Ea.
        erewrite bind_returned by exact Eb. reflexivity.
      * split.
        -- unfold activityMonitoringActive. simpl. now rewrite Hi.
        -- simpl. apply lookup_delete_eq.
    + exists [], s1. repeat split. exact Es.
Qed.

(** ** createContainer *)

Lemma detach_attempt file s :
  exists s' detach,
    try_catch
      (loopDevices <- exec P (LosetupAssoc file) ;;
       match loopMatch loopDevices with
       | Some dev => exec P (LosetupDetach dev) ;; ret tt
       | None => ret tt
       end)
      (fun _ => ret tt) s = (Returned tt, s') /\
    trace s' = trace s ++ EvExec (LosetupAssoc file) :: detach /\
    (detach = [] \/ exists dev, detach = [EvExec (LosetupDetach dev)]).
Proof.
  unfold exec, emit, modify, call_world, bind, try_catch, ret. simpl.
  destruct (execSync P (LosetupAssoc file) (world s)) as [[o|e] w]; simpl.
  - destruct (loopMatch o) as [dev|]; simpl.
    + destruct (execSync P (LosetupDetach dev) w) as [[o'|e'] w']; simpl;
        eexists _, [_]; (split; [reflexivity|]);
        (split; [simpl; now rewrite <- app_assoc | right; eauto]).
    + eexists _, []. split; [reflexivity|]. split; [reflexivity | now left].
  - eexists _, []. split; [reflexivity|]. split; [reflexivity | now left].
Qed.

Lemma luksClose_attempt deviceName (s : St P) :
  exists s',
    try_catch (exec P (LuksClose deviceName) ;; ret tt) (fun _ => ret tt) s
      = (Returned tt, s') /\
    trace s' = trace s ++ [EvExec (LuksClose deviceName)].
Proof.
  unfold exec, emit, modify, call_world, bind, try_catch, ret. simpl.
  destruct (execSync P (LuksClose deviceName) (world s)) as [[o|e] w]; simpl;
    eexists; split; reflexivity.
Qed.



(** ** deleteContainer *)

Lemma bind_thrown {A B} (m : Comp (St P) A) (k : A -> Comp (St P) B) s e s' :
  m s = (Thrown e, s') -> bind m k s = (Thrown e, s').
Proof. intros E. unfold bind. now rewrite E. Qed.

Lemma removeStep_run path removed missing (l : list string) (s : St P) :
  removeStep P path removed missing (l, s) =
  if pathExists P path (world s) then
    let s1 := with_event P (EvRemove path) s in
    match remove P path (world s) with
    | (Returned _, w) => (Returned tt, (l ++ [removed], with_world P w s1))
    | (Thrown e, w) => (Thrown e, (l, with_world P w s1))
    end
  else (Returned tt, (l ++ [missing], s)).
Proof.
  unfold removeStep, lift, push, fs_pathExists, fs_remove, emit, modify,
    call_world, gets, bind. simpl.
  destruct (pathExists P path (world s)); simpl; [|reflexivity].
  destruct (remove P path (world s)) as [[[]|e] w]; reflexivity.
Qed.

Lemma deleteContainer_run name s :
  exists u s1,
    unmountContainer P name s = (Returned u, s1) /\
    deleteContainer P name s =
      match removeInOrder (removalSteps name) ["Container unmounted"] s1 with
      | (completed, None, s2) =>
          (Returned {| dr_success := true;
                       dr_message := "Container " +:+ name
                                       +:+ " deleted successfully";
                       details := completed;
                       warning := None |}, s2)
      | (completed, Some e, s2) =>
          (Returned {| dr_success := true;
                       dr_message := "Container " +:+ name
                                       +:+ " cleanup completed (with issues)";
                       details := completed;
                       warning := Some (message e) |},
           with_event P (EvConsoleError ("Error deleting container " +:+ name
                                         +:+ ": " +:+ message e)) s2)
      end.
Proof.
  destruct (returns_unmountContainer name s) as (u & s1 & Eu).
  exists u, s1. split; [exact Eu|].
  unfold deleteContainer, deleteBody.
  unfold try_catch at 1. unfold bind at 1. unfold try_catch at 1.
  unfold bind at 1. unfold lift at 1. rewrite Eu.
  unfold push at 1, modify at 1.
  simpl removeInOrder.
  repeat first
    [ rewrite removeStep_run
    | progress simpl
    | progress (unfold bind, try_catch, lift, gets, ret, consoleError, emit,
                modify)
    | match goal with
      | |- context [pathExists P ?p ?w] => destruct (pathExists P p w)
      | |- context [remove P ?p ?w] => destruct (remove P p w) as [[[]|?] ?]
      end ];
    reflexivity.
Qed.

(** Claim C8, as amended.  [deleteContainer] never fails.  It unmounts
    first, and goes on whatever the unmount did; it then takes the removal
    of the container file, of the configuration file and of the mount
    point in that order, a missing path being recorded and skipped over.
    The first removal that throws ends the run: the steps after it are not
    attempted.  The result has [success = true] in every case; when a
    removal threw it has the clean-up message, the steps that were
    completed and the warning.  The route answers 400 when the password is
    missing, 500 when the verification throws, 401 with Invalid password
    when the verification returns false, and otherwise 200 with the result
    of [deleteContainer]. *)
Theorem deleteContainer_spec name password s :
  (exists u s1,
     unmountContainer P name s = (Returned u, s1) /\
     deleteContainer P name s =
       match removeInOrder (removalSteps name) ["Container unmounted"] s1 with
       | (completed, None, s2) =>
           (Returned {| dr_success := true;
                        dr_message := "Container " +:+ name
                                        +:+ " deleted successfully";
                        details := completed;
                        warning := None |}, s2)
       | (completed, Some e, s2) =>
           (Returned {| dr_success := true;
                        dr_message := "Container " +:+ name
                                        +:+ " cleanup completed (with issues)";
                        details := completed;
                        warning := Some (message e) |},
            with_event P (EvConsoleError ("Error deleting container " +:+ name
                                          +:+ ": " +:+ message e)) s2)
       end) /\
  (if negb (truthy_string password) then
     deletePrimary P password s =
       (Returned {| status := 400;
                    body := ErrorBody "Password required for deletion" |}, s)
   else
     match verifyContainerPassword P "primary" password s with
     | (Thrown e, s1) =>
         deletePrimary P password s =
           (Returned {| status := 500; body := ErrorBody (message e) |}, s1)
     | (Returned false, s1) =>
         deletePrimary P password s =
           (Returned {| status := 401; body := ErrorBody "Invalid password" |},
            s1)
     | (Returned true, s1) =>
         exists result s2,
           deleteContainer P "primary" s1 = (Returned result, s2) /\
           dr_success result = true /\
           deletePrimary P password s =
             (Returned {| status := 200; body := DeleteBody result |}, s2)
     end).
Proof.
  split; [apply deleteContainer_run|].
  unfold deletePrimary, try_catch.
  destruct (truthy_string password); simpl; [|reflexivity].
  destruct (verifyContainerPassword P "primary" password s) as [[[]|e] s1]
    eqn:Ev.
  - destruct (deleteContainer_run "primary" s1) as (u & sa & _ & Ed).
    erewrite bind_returned by exact Ev. simpl.
    destruct (removeInOrder _ _ sa) as [[completed [e|]] s2];
      eexists _, _; (split; [exact Ed|]); (split; [reflexivity|]);
      erewrite bind_returned by exact Ed; reflexivity.
  - erewrite bind_returned by exact Ev. reflexivity.
  - erewrite bind_thrown by exact Ev. reflexivity.
Qed.

(** ** The service holds the only timer *)

#[local] Instance keepsOwned_refl : Reflexive (@keepsOwned P).
Proof. intros s H. exact H. Qed.

#[local] Instance keepsOwned_trans : Transitive (@keepsOwned P).
Proof. intros s1 s2 s3 H12 H23 H. apply H23, H12, H. Qed.

Lemma keepsOwned_same (s s' : St P) :
  timers s' = timers s ->
  activityCheckInterval s' = activityCheckInterval s ->
  keepsOwned s s'.
Proof. intros Ht Hi H id n. rewrite Ht, Hi. apply H. Qed.

Lemma emit_keeps e : respects keepsOwned (emit P e).
Proof. intros s. apply keepsOwned_same; reflexivity. Qed.

Lemma call_world_keeps {A} (f : World P -> Outcome A * World P) :
  respects keepsOwned (call_world P f).
Proof.
  intros s. unfold call_world. destruct (f (world s)).
  apply keepsOwned_same; reflexivity.
Qed.

Lemma on_world_keeps {A} (f : World P -> A * World P) :
  respects keepsOwned (on_world P f).
Proof.
  intros s. unfold on_world. destruct (f (world s)). apply keepsOwned_same; reflexivity.
Qed.

Lemma read_world_keeps {A} (f : World P -> Outcome A) :
  respects keepsOwned (read_world P f).
Proof. intros s. apply keepsOwned_same; reflexivity. Qed.

Lemma modify_keeps (f : St P -> St P) :
  (forall s, timers (f s) = timers s) ->
  (forall s, activityCheckInterval (f s) = activityCheckInterval s) ->
  respects keepsOwned (modify f).
Proof. intros Ht Hi s. apply keepsOwned_same; [apply Ht | apply Hi]. Qed.

Lemma stopActivityMonitoring_keeps :
  respects keepsOwned (stopActivityMonitoring P).
Proof.
  intros s H. destruct (stopActivityMonitoring_spec s) as (s' & E & Hi & _ & _ & Ht & _).
  rewrite E. simpl. intros id n Hl. rewrite Ht in Hl.
  destruct (activityCheckInterval s) as [id0|] eqn:E0.
  - destruct (decide (id = id0)) as [->|Hne].
    + now rewrite lookup_delete_eq in Hl.
    + rewrite lookup_delete_ne in Hl by congruence. apply H in Hl. congruence.
  - apply H in Hl. congruence.
Qed.

Lemma startActivityMonitoring_keeps name :
  respects keepsOwned (startActivityMonitoring P name).
Proof.
  intros s H. unfold startActivityMonitoring, setInterval, clearInterval, emit,
    modify, gets, bind, ret. simpl.
  destruct (activityCheckInterval s) as [id0|] eqn:E0; simpl;
    intros id n Hl; simpl in *.
  - destruct (decide (id = nextTimer s)) as [->|Hne]; [reflexivity|].
    rewrite lookup_insert_ne in Hl by congruence.
    destruct (decide (id = id0)) as [->|Hne0].
    + now rewrite lookup_delete_eq in Hl.
    + rewrite lookup_delete_ne in Hl by congruence. apply H in Hl. congruence.
  - destruct (decide (id = nextTimer s)) as [->|Hne]; [reflexivity|].
    rewrite lookup_insert_ne in Hl by congruence. apply H in Hl. congruence.
Qed.

Ltac keeps_step :=
  first
    [ match goal with
      | |- Reflexive _ => tc_solve
      | |- Transitive _ => tc_solve
      end
    | match goal with
      | H : forall _, respects _ _ |- _ => apply H
      | H : forall _ _, respects _ _ |- _ => apply H
      end
    | apply respects_ret
    | apply respects_throw
    | apply respects_gets
    | apply call_world_keeps | apply on_world_keeps | apply read_world_keeps
    | apply emit_keeps
    | apply stopActivityMonitoring_keeps
    | apply startActivityMonitoring_keeps
    | apply modify_keeps; intros ?; reflexivity
    | apply respects_try_catch
    | apply respects_bind
    | apply respects_if
    | match goal with
      | |- respects _ (match ?x with _ => _ end) => destruct x
      | |- respects _ (let '(_, _) := ?x in _) => destruct x
      | |- forall _, _ => intro
      end ].

Ltac keeps_auto := repeat keeps_step; eauto with comp.

Lemma getContainerStatus_keeps name :
  respects keepsOwned (getContainerStatus P name).
Proof.
  unfold getContainerStatus, fs_pathExists, fs_access, fs_stat_isDirectory,
    fs_readJSON, exec. keeps_auto.
Qed.

Lemma waitTerminated_keeps remaining attempts :
  respects keepsOwned (waitTerminated P remaining attempts).
Proof.
  revert attempts. induction remaining as [|r IH]; intros attempts; simpl;
    unfold exec, sleepFor; keeps_auto.
Qed.

Lemma stopEach_keeps apps results :
  respects keepsOwned (stopEach P apps results).
Proof.
  pose proof waitTerminated_keeps.
  revert results. induction apps as [|app rest IH]; intros results; simpl;
    unfold stopOne, exec, sleepFor; keeps_auto.
Qed.

Lemma stopApplications_keeps name :
  respects keepsOwned (stopApplications P name).
Proof.
  pose proof getContainerStatus_keeps. pose proof stopEach_keeps.
  unfold stopApplications. keeps_auto.
Qed.

Lemma unmountContainer_keeps name :
  respects keepsOwned (unmountContainer P name).
Proof.
  pose proof stopApplications_keeps.
  unfold unmountContainer, unmountSteps, exec, consoleError. keeps_auto.
Qed.

Lemma waitStopped_keeps remaining attempts :
  respects keepsOwned (waitStopped P remaining attempts).
Proof.
  revert attempts. induction remaining as [|r IH]; intros attempts; simpl;
    unfold isSillyTavernRunning, sleepFor; keeps_auto.
Qed.

Lemma checkForInactivity_keeps name :
  respects keepsOwned (checkForInactivity P name).
Proof.
  pose proof getContainerStatus_keeps. pose proof stopApplications_keeps.
  pose proof unmountContainer_keeps. pose proof waitStopped_keeps.
  unfold checkForInactivity, readTimeout, autoDismount, newDate, consoleWarn,
    consoleError. keeps_auto.
Qed.

Lemma startApplications_keeps name :
  respects keepsOwned (startApplications P name).
Proof.
  pose proof getContainerStatus_keeps.
  assert (He : forall apps results,
             respects keepsOwned (startEach P apps results)).
  { induction apps as [|app rest IH]; intros results; simpl;
      unfold startOne, spawnBash; keeps_auto. }
  unfold startApplications, recordActivity, newDate. keeps_auto.
Qed.

Lemma createContainer_keeps name password sizeGB :
  respects keepsOwned (createContainer P name password sizeGB).
Proof.
  unfold createContainer, createSteps, createCleanup, fs_pathExists,
    fs_remove, fs_writeJSON, newDate, exec, consoleError. keeps_auto.
Qed.

Lemma mountContainer_keeps name password :
  respects keepsOwned (mountContainer P name password).
Proof.
  unfold mountContainer, setupSillyTavern, fs_pathExists, fs_ensureDir, exec,
    consoleError. keeps_auto.
Qed.

Lemma verifyContainerPassword_keeps name password :
  respects keepsOwned (verifyContainerPassword P name password).
Proof. unfold verifyContainerPassword, fs_pathExists, exec. keeps_auto. Qed.

Lemma recordActivity_keeps name : respects keepsOwned (recordActivity P name).
Proof. unfold recordActivity, newDate. keeps_auto. Qed.

Lemma removeInOrder_keeps steps completed (s : St P) :
  keepsOwned s (snd (removeInOrder steps completed s)).
Proof.
  revert completed s. induction steps as [|[[path removed] missing] rest IH];
    intros completed s; simpl; [reflexivity|].
  destruct (pathExists P path (world s)); [|apply IH].
  destruct (remove P path (world s)) as [[[]|e] w]; simpl.
  - etransitivity; [|apply IH]. apply keepsOwned_same; reflexivity.
  - apply keepsOwned_same; reflexivity.
Qed.

Lemma deleteContainer_keeps name :
  respects keepsOwned (deleteContainer P name).
Proof.
  intros s. destruct (deleteContainer_run name s) as (u & s1 & Eu & Ed).
  rewrite Ed. transitivity s1.
  - pose proof (unmountContainer_keeps name s) as H. now rewrite Eu in H.
  - pose proof (removeInOrder_keeps (removalSteps name) ["Container unmounted"]
                  s1) as H.
    destruct (removeInOrder _ _ s1) as [[completed [e|]] s2]; simpl in *;
      [|exact H].
    etransitivity; [exact H|]. apply keepsOwned_same; reflexivity.
Qed.

Lemma deletePrimary_keeps password :
  respects keepsOwned (deletePrimary P password).
Proof.
  pose proof verifyContainerPassword_keeps. pose proof deleteContainer_keeps.
  unfold deletePrimary. keeps_auto.
Qed.

(** The service holds the only timer, at the start and after every
    operation: whatever is scheduled is the check it can cancel. *)
Theorem timersOwned_invariant :
  (forall w, timersOwned (mkSt ∅ None ∅ 0%nat w [] : St P)) /\
  (forall name password sizeGB,
     respects keepsOwned (createContainer P name password sizeGB) /\
     respects keepsOwned (mountContainer P name password) /\
     respects keepsOwned (unmountContainer P name) /\
     respects keepsOwned (startApplications P name) /\
     respects keepsOwned (stopApplications P name) /\
     respects keepsOwned (verifyContainerPassword P name password) /\
     respects keepsOwned (deleteContainer P name) /\
     respects keepsOwned (deletePrimary P password) /\
     respects keepsOwned (getContainerStatus P name) /\
     respects keepsOwned (recordActivity P name) /\
     respects keepsOwned (startActivityMonitoring P name) /\
     respects keepsOwned (stopActivityMonitoring P) /\
     respects keepsOwned (checkForInactivity P name)).
Proof.
  split.
  - intros w id n H. simpl in H. now rewrite lookup_empty in H.
  - intros name password sizeGB.
    repeat split;
      auto using createContainer_keeps, mountContainer_keeps,
        unmountContainer_keeps, startApplications_keeps,
        stopApplications_keeps, verifyContainerPassword_keeps,
        deleteContainer_keeps, deletePrimary_keeps, getContainerStatus_keeps,
        recordActivity_keeps, startActivityMonitoring_keeps,
        stopActivityMonitoring_keeps, checkForInactivity_keeps.
Qed.

Lemma bind_unfold {A B} (m : Comp (St P) A) (k : A -> Comp (St P) B) s :
  bind m k s = match m s with
               | (Returned a, s') => k a s'
               | (Thrown e, s') => (Thrown e, s')
               end.
Proof. reflexivity. Qed.

(** ** The monitoring state is left alone *)

#[local] Instance monitoringKept_refl : Reflexive (@monitoringKept P).
Proof. intros s. repeat split. Qed.

#[local] Instance monitoringKept_trans : Transitive (@monitoringKept P).
Proof.
  intros s1 s2 s3 (A1 & B1 & C1 & D1) (A2 & B2 & C2 & D2).
  repeat split; congruence.
Qed.

Lemma emit_kept e : respects monitoringKept (emit P e).
Proof. intros s. repeat split. Qed.

Lemma call_world_kept {A} (f : World P -> Outcome A * World P) :
  respects monitoringKept (call_world P f).
Proof. intros s. unfold call_world. destruct (f (world s)). repeat split. Qed.

Lemma on_world_kept {A} (f : World P -> A * World P) :
  respects monitoringKept (on_world P f).
Proof. intros s. unfold on_world. destruct (f (world s)). repeat split. Qed.

Lemma read_world_kept {A} (f : World P -> Outcome A) :
  respects monitoringKept (read_world P f).
Proof. intros s. repeat split. Qed.

Lemma sleepFor_kept ms : respects monitoringKept (sleepFor P ms).
Proof. intros s. repeat split. Qed.

Ltac kept_step :=
  first
    [ match goal with
      | |- Reflexive _ => tc_solve
      | |- Transitive _ => tc_solve
      end
    | match goal with
      | H : forall _, respects _ _ |- _ => apply H
      | H : forall _ _, respects _ _ |- _ => apply H
      end
    | apply respects_ret
    | apply respects_throw
    | apply respects_gets
    | apply call_world_kept | apply on_world_kept | apply read_world_kept
    | apply emit_kept
    | apply sleepFor_kept
    | apply respects_try_catch
    | apply respects_bind
    | apply respects_if
    | match goal with
      | |- respects _ (match ?x with _ => _ end) => destruct x
      | |- respects _ (let '(_, _) := ?x in _) => destruct x
      | |- forall _, _ => intro
      end ].

Ltac kept_auto := repeat kept_step; eauto with comp.

Lemma getContainerStatus_kept name :
  respects monitoringKept (getContainerStatus P name).
Proof.
  unfold getContainerStatus, fs_pathExists, fs_access, fs_stat_isDirectory,
    fs_readJSON, exec. kept_auto.
Qed.

Lemma getContainerStatus_probes name :
  respects (extends_with probeEvent) (getContainerStatus P name).
Proof.
  unfold getContainerStatus, fs_pathExists, fs_access, fs_stat_isDirectory,
    fs_readJSON, exec.
  extends_auto (anyEvent_true probeEvent).
Qed.

(** X1.  [getContainerStatus] never throws and only looks: it runs nothing
    but [ls] on the mapping and [mount] without arguments, and it leaves
    the monitoring state alone.  The status it returns is coherent:
    [exists] is what [pathExists] says of the backing file; the mount point
    is given exactly when the container is reported mounted, and it is the
    mount point of that name; the applications are those of the
    configuration, and none when there is no configuration; a container
    whose backing file is missing is reported not mounted and without
    configuration, whatever the mount point and the sidecar are, and then
    nothing at all is run. *)
Theorem getContainerStatus_coherent name s :
  exists status s',
    getContainerStatus P name s = (Returned status, s') /\
    st_exists status = pathExists P (containerFileOf name) (world s) /\
    mountPoint status =
      (if mounted status then Some (mountPointOf name) else None) /\
    st_applications status =
      match config status with
      | Some cfg => applications cfg
      | None => []
      end /\
    (st_exists status = false ->
     mounted status = false /\ config status = None /\ s' = s) /\
    extends_with probeEvent s s' /\
    monitoringKept s s'.
Proof.
  destruct (returns_getContainerStatus name s) as (status & s' & E).
  exists status, s'. split; [exact E|].
  pose proof (getContainerStatus_probes name s) as Hp.
  pose proof (getContainerStatus_kept name s) as Hk.
  rewrite E in Hp, Hk. simpl in Hp, Hk.
  revert E. unfold getContainerStatus.
  erewrite bind_returned by reflexivity. cbv beta.
  destruct (pathExists P (containerFileOf name) (world s)) eqn:Hex.
  - match goal with
    | |- bind ?m ?k s = _ -> _ => destruct (m s) as [[[m0 c0]|e0] s0] eqn:E0
    end.
    + erewrite bind_returned by exact E0. intros E. injection E as <- <-.
      simpl. split; [reflexivity|]. split; [reflexivity|].
      split; [reflexivity|]. split; [discriminate|]. split; assumption.
    + erewrite bind_thrown by exact E0. discriminate.
  - erewrite bind_returned by reflexivity. intros E. injection E as <- <-.
    simpl. split; [reflexivity|]. split; [reflexivity|].
    split; [reflexivity|]. split; [|split; assumption].
    intros _. repeat split.
Qed.
(** ** getPrimaryContainer and the routes that cannot fail *)

Lemma try_returned {A} (m : Comp (St P) A) h s a s' :
  m s = (Returned a, s') -> try_catch m h s = (Returned a, s').
Proof. intros E. unfold try_catch. now rewrite E. Qed.

Lemma try_thrown {A} (m : Comp (St P) A) h s e s' :
  m s = (Thrown e, s') -> try_catch m h s = h e s'.
Proof. intros E. unfold try_catch. now rewrite E. Qed.

Lemma isSillyTavernRunning_run s :
  isSillyTavernRunning P s =
    let '(answer, w) := httpGet P sillyTavernUrl (world s) in
    let s' := with_world P w (with_event P (EvHttpGet sillyTavernUrl) s) in
    match answer with
    | HttpResponse => (Returned true, s')
    | HttpRequestError | HttpTimeout => (Returned false, s')
    | HttpThrows e => (Thrown e, s')
    end.
Proof.
  unfold isSillyTavernRunning, emit, modify, on_world, bind, ret, throw. simpl.
  destruct (httpGet P sillyTavernUrl (world s)) as [[] w]; reflexivity.
Qed.

Lemma returns_getPrimaryContainer : returns (getPrimaryContainer P).
Proof. unfold getPrimaryContainer. returns_auto. Qed.

(** X2.  [getPrimaryContainer] never throws.  It reads the status of the
    primary container and then probes SillyTavern.  When the probe answers
    or fails, the object returned carries that status, whether SillyTavern
    answered, the activity record of the primary container, whether
    monitoring is on, and the whole minutes elapsed since the record
    ([null] when there is no record): [m] with
    [m * 60000 <= now - last < (m + 1) * 60000].  When the probe throws,
    the fallback object is returned instead, which says that the container
    does not exist, whatever the status just read said. *)
Theorem getPrimaryContainer_spec s :
  exists status s1 container s',
    getContainerStatus P "primary" s = (Returned status, s1) /\
    getPrimaryContainer P s = (Returned container, s') /\
    pc_name container = "primary" /\
    pc_file container = "primary.vc" /\
    match fst (httpGet P sillyTavernUrl (world s1)) with
    | HttpThrows _ =>
        pc_status container = missingStatus /\
        sillyTavernRunning container = false /\
        pc_lastActivity container = None /\
        minutesInactive container = None /\
        pc_activityMonitoringActive container = None
    | answer =>
        pc_status container = status /\
        sillyTavernRunning container =
          match answer with HttpResponse => true | _ => false end /\
        pc_lastActivity container = lastActivity s !! "primary" /\
        pc_activityMonitoringActive container =
          Some (activityMonitoringActive s) /\
        match lastActivity s !! "primary" with
        | None => minutesInactive container = None
        | Some last =>
            exists m,
              minutesInactive container = Some m /\
              m * 60000 <= clock P (world s') - last < (m + 1) * 60000
        end
    end.
Proof.
  destruct (returns_getContainerStatus "primary" s) as (status & s1 & Es).
  pose proof (getContainerStatus_kept "primary" s) as Hk.
  rewrite Es in Hk. destruct Hk as (Hl & Hi & _ & _). simpl in Hl, Hi.
  exists status, s1.
  pose proof (isSillyTavernRunning_run s1) as Er.
  destruct (httpGet P sillyTavernUrl (world s1)) as [answer w]. simpl.
  cbv zeta in Er.
  set (s2 := with_world P w (with_event P (EvHttpGet sillyTavernUrl) s1)) in *.
  assert (Hfloor : forall now last,
             (now - last) / (1000 * 60) * 60000 <= now - last
               < ((now - last) / (1000 * 60) + 1) * 60000).
  { intros now last. change (1000 * 60) with 60000.
    pose proof (Z.div_mod (now - last) 60000 ltac:(lia)).
    pose proof (Z.mod_pos_bound (now - last) 60000 ltac:(lia)). lia. }
  assert (Hrec : lastActivity s2 !! "primary" = lastActivity s !! "primary")
    by (subst s2; simpl; now rewrite Hl).
  assert (Hact : activityMonitoringActive s2 = activityMonitoringActive s)
    by (subst s2; unfold activityMonitoringActive; simpl; now rewrite Hi).
  unfold getPrimaryContainer, primaryContainerName. cbv zeta.
  destruct (lastActivity s !! "primary") as [last|];
    (destruct answer;
     [ | | | eexists _, _; split; [exact Es|]; split;
             [ etransitivity;
               [ apply try_thrown; erewrite bind_returned by exact Es;
                 apply bind_thrown; exact Er
               | reflexivity ]
             | repeat split ] ]).
  all: eexists _, s2; split; [exact Es|]; split;
    [ apply try_returned; erewrite bind_returned by exact Es;
      erewrite bind_returned by exact Er;
      erewrite bind_returned by reflexivity; cbv beta; rewrite Hrec;
      erewrite bind_returned by reflexivity;
      erewrite bind_returned by reflexivity;
      cbv beta; rewrite Hact; reflexivity
    | ].
  all: simpl; repeat split;
    try (eexists; (split; [reflexivity|]); apply Hfloor).
Qed.

Lemma returns_stopApplications_route :
  forall s, exists rs s', postStop P s = (Returned (Json rs), s').
Proof.
  intros s. destruct (returns_stopApplications primaryContainerName s)
    as (rs & s' & E).
  exists rs, s'. unfold postStop. apply try_returned.
  erewrite bind_returned by exact E. reflexivity.
Qed.

(** X3.  Three routes always answer 200, the handler of the error being
    out of reach: [GET /primary], because [getPrimaryContainer] catches
    everything; [POST /primary/unmount], whose answer is always the success
    object, mounted or not; and [POST /primary/stop]. *)
Theorem routes_that_cannot_fail s :
  (exists container s', getPrimary P s = (Returned (Json container), s')) /\
  (exists s',
     postUnmount P s =
       (Returned
          (Json {| ur_success := true;
                   ur_message := "Container primary unmounted successfully" |}),
        s')) /\
  (exists results s', postStop P s = (Returned (Json results), s')).
Proof.
  split; [|split].
  - destruct (returns_getPrimaryContainer s) as (c & s' & E).
    exists c, s'. unfold getPrimary. apply try_returned.
    erewrite bind_returned by exact E. reflexivity.
  - destruct (returns_stopApplications primaryContainerName s) as (rs & s1 & E1).
    destruct (returns_unmountSteps primaryContainerName s1) as ([] & s2 & E2).
    exists s2. unfold postUnmount. apply try_returned.
    unfold unmountContainer.
    erewrite bind_returned; [reflexivity|].
    erewrite bind_returned by exact E1.
    erewrite bind_returned by exact E2. reflexivity.
  - apply returns_stopApplications_route.
Qed.
(** ** Monitoring *)

Lemma timersOwned_after_clear (s : St P) :
  timersOwned s ->
  match activityCheckInterval s with
  | Some old => delete old (timers s)
  | None => timers s
  end = ∅.
Proof.
  intros Hown. apply map_eq. intros i. rewrite lookup_empty.
  destruct (activityCheckInterval s) as [old|] eqn:Ei.
  - destruct (decide (i = old)) as [->|Hne]; [apply lookup_delete_eq|].
    rewrite lookup_delete_ne by congruence.
    destruct (timers s !! i) as [n|] eqn:En; [|reflexivity].
    apply Hown in En. congruence.
  - destruct (timers s !! i) as [n|] eqn:En; [|reflexivity].
    apply Hown in En. congruence.
Qed.

Lemma startActivityMonitoring_run name (s : St P) :
  exists s',
    startActivityMonitoring P name s = (Returned tt, s') /\
    activityCheckInterval s' = Some (nextTimer s) /\
    timers s' = <[nextTimer s := name]>
                  match activityCheckInterval s with
                  | Some old => delete old (timers s)
                  | None => timers s
                  end /\
    lastActivity s' = lastActivity s /\
    world s' = world s /\
    trace s' = trace s
                 ++ match activityCheckInterval s with
                    | Some old => [EvClearInterval old]
                    | None => []
                    end
                 ++ [EvSetInterval (nextTimer s) name (30 * 1000)].
Proof.
  unfold startActivityMonitoring, setInterval, clearInterval, emit, modify,
    gets, bind, ret.
  destruct (activityCheckInterval s) as [old|]; simpl;
    eexists; (split; [reflexivity|]); simpl; repeat split.
  now rewrite <- app_assoc.
Qed.

(** X4.  The service holding the only timer, [startActivityMonitoring]
    leaves exactly one timer scheduled: the check of the container it was
    given, every 30 seconds, which is the interval the service now holds.
    A check that was scheduled before is cancelled first, so starting
    twice does not stack the checks.  The activity records are not
    touched. *)
Theorem startActivityMonitoring_replaces name (s : St P) :
  timersOwned s ->
  exists s',
    startActivityMonitoring P name s = (Returned tt, s') /\
    activityCheckInterval s' = Some (nextTimer s) /\
    timers s' = {[ nextTimer s := name ]} /\
    lastActivity s' = lastActivity s /\
    trace s' = trace s
                 ++ match activityCheckInterval s with
                    | Some old => [EvClearInterval old]
                    | None => []
                    end
                 ++ [EvSetInterval (nextTimer s) name (30 * 1000)].
Proof.
  intros Hown.
  destruct (startActivityMonitoring_run name s)
    as (s' & E & Hi & Ht & Hl & _ & Htr).
  exists s'. repeat split; try assumption.
  rewrite Ht, timersOwned_after_clear by exact Hown. reflexivity.
Qed.

Lemma spawnBash_kept command cwd : respects monitoringKept (spawnBash P command cwd).
Proof. unfold spawnBash. kept_auto. Qed.

Lemma startEach_kept apps results :
  respects monitoringKept (startEach P apps results).
Proof.
  revert results. induction apps as [|app rest IH]; intros results; simpl;
    unfold startOne, spawnBash; kept_auto.
Qed.

(** X5.  Under the same condition, when [startApplications] returns: if
    one launch at least succeeded, monitoring is on, the only timer
    scheduled is the check of this container, and the activity record of
    the container is the time of the clock; if none did (or there was
    nothing to launch), the monitoring state is as it was before the
    call. *)
Theorem startApplications_monitoring name (s : St P) results s' :
  timersOwned s ->
  startApplications P name s = (Returned results, s') ->
  if existsb ar_success results then
    activityCheckInterval s' = Some (nextTimer s) /\
    timers s' = {[ nextTimer s := name ]} /\
    lastActivity s' = <[ name := clock P (world s') ]> (lastActivity s) /\
    last (trace s') = Some (EvSetInterval (nextTimer s) name (30 * 1000))
  else monitoringKept s s'.
Proof.
  intros Hown. unfold startApplications.
  destruct (returns_getContainerStatus name s) as (status & s1 & Es).
  pose proof (getContainerStatus_kept name s) as K1. rewrite Es in K1.
  simpl in K1.
  erewrite bind_returned by exact Es.
  destruct (mounted status); simpl; [|discriminate].
  destruct (config status) as [cfg|]; [|discriminate].
  destruct (returns_startEach (applications cfg) [] s1) as (rs & s2 & Ee).
  pose proof (startEach_kept (applications cfg) [] s1) as K2. rewrite Ee in K2.
  simpl in K2.
  assert (K : monitoringKept s s2) by (etransitivity; eassumption).
  destruct K as (Kl & Ki & Kt & Kn).
  erewrite bind_returned by exact Ee.
  destruct (existsb ar_success rs) eqn:Hany.
  - destruct (startActivityMonitoring_run name s2)
      as (s3 & E3 & Hi & Ht & Hl & Hw & Htr).
    erewrite bind_returned.
    2:{ erewrite bind_returned by exact E3. reflexivity. }
    intros E. injection E as <- <-. rewrite Hany. simpl.
    rewrite Hi, Ht, Hl, Hw, Htr, Kn, Kl. repeat split.
    + assert (Hown2 : timersOwned s2).
      { intros id n. rewrite Kt, Ki. apply Hown. }
      rewrite timersOwned_after_clear by exact Hown2. reflexivity.
    + rewrite app_assoc. apply last_snoc.
  - erewrite bind_returned by reflexivity.
    intros E. injection E as <- <-. rewrite Hany. repeat split; assumption.
Qed.
(** ** stopApplications *)

Lemma waitTerminated_trace remaining attempts s :
  exists j s',
    waitTerminated P remaining attempts s = (Returned (attempts + j)%nat, s') /\
    (j <= remaining)%nat /\
    trace s' = trace s ++ termTrace j
                 ++ (if (j <? remaining)%nat then [EvExec (Pgrep nodeServer)]
                     else []).
Proof.
  revert attempts s. induction remaining as [|r IH]; intros attempts s.
  - exists 0%nat, s. simpl. rewrite Nat.add_0_r, app_nil_r.
    repeat split; lia.
  - simpl waitTerminated.
    unfold exec, sleepFor, emit, modify, call_world, bind, try_catch, ret.
    simpl.
    destruct (execSync P (Pgrep nodeServer) (world s)) as [[o|e] w]; simpl.
    + set (s1 := with_world P _ _).
      destruct (IH (S attempts) s1) as (j & s' & E & Hj & T).
      exists (S j), s'. rewrite E, T. subst s1. simpl.
      replace (attempts + S j)%nat with (S attempts + j)%nat by lia.
      repeat split; try lia.
      change (S j <? S r)%nat with (j <? r)%nat.
      now rewrite <- !app_assoc.
    + eexists 0%nat, _. rewrite Nat.add_0_r. repeat split; lia.
Qed.

Lemma stopOne_run app s :
  let shutdown := Shell (shutdownCommand app) mountPath in
  match execSync P shutdown (world s) with
  | (Thrown e, w) =>
      stopOne P app s =
        (Returned {| application := app_name app;
                     ar_success := false;
                     ar_message := "Failed to stop " +:+ app_name app +:+ ": "
                                     +:+ message e |},
         with_world P w (with_event P (EvExec shutdown) s))
  | (Returned _, _) =>
      exists k s' tail,
        stopOne P app s =
          (Returned {| application := app_name app;
                       ar_success := true;
                       ar_message := app_name app +:+ " stopped successfully" |},
           s') /\
        (k <= maxAttempts)%nat /\
        trace s' = trace s ++ EvExec shutdown :: termTrace k ++ tail /\
        if (k <? maxAttempts)%nat then tail = [EvExec (Pgrep nodeServer)]
        else tail = [EvExec (Pkill9 nodeServer)] \/
             tail = [EvExec (Pkill9 nodeServer); EvSleep 1000]
  end.
Proof.
  cbv zeta. unfold stopOne.
  set (shutdown := Shell (shutdownCommand app) mountPath).
  destruct (execSync P shutdown (world s)) as [[o|e] w] eqn:Ex.
  - set (s0 := with_world P w (with_event P (EvExec shutdown) s)).
    assert (E0 : exec P shutdown s = (Returned o, s0)).
    { unfold exec, emit, modify, call_world, bind. simpl. now rewrite Ex. }
    destruct (waitTerminated_trace maxAttempts 0 s0) as (k & s1 & E1 & Hk & T1).
    change (0 + k)%nat with k in E1.
    assert (T0 : trace s0 = trace s ++ [EvExec shutdown]) by reflexivity.
    destruct (k <? maxAttempts)%nat eqn:Hlt.
    + exists k, s1, [EvExec (Pgrep nodeServer)].
      split; [|split; [exact Hk|split; [|rewrite Hlt; reflexivity]]].
      * apply try_returned. erewrite bind_returned by exact E0.
        erewrite bind_returned by exact E1.
        apply Nat.ltb_lt in Hlt.
        replace (maxAttempts <=? k)%nat with false
          by (symmetry; apply Nat.leb_gt; exact Hlt).
        reflexivity.
      * rewrite T1, T0, <- app_assoc. reflexivity.
    + assert (Hge : (maxAttempts <=? k)%nat = true)
        by (apply Nat.leb_le; apply Nat.ltb_ge in Hlt; exact Hlt).
      destruct (execSync P (Pkill9 nodeServer) (world s1)) as [[o'|e'] w'] eqn:Ek.
      * eexists k, _, [EvExec (Pkill9 nodeServer); EvSleep 1000].
        split; [|split; [exact Hk|split; [|rewrite Hlt; now right]]].
        -- apply try_returned. erewrite bind_returned by exact E0.
           erewrite bind_returned by exact E1. rewrite Hge.
           unfold exec, sleepFor, emit, modify, call_world, bind, try_catch, ret.
           simpl. rewrite Ek. reflexivity.
        -- simpl. rewrite T1, T0. rewrite app_nil_r, <- !app_assoc. reflexivity.
      * eexists k, _, [EvExec (Pkill9 nodeServer)].
        split; [|split; [exact Hk|split; [|rewrite Hlt; now left]]].
        -- apply try_returned. erewrite bind_returned by exact E0.
           erewrite bind_returned by exact E1. rewrite Hge.
           unfold exec, sleepFor, emit, modify, call_world, bind, try_catch, ret.
           simpl. rewrite Ek. reflexivity.
        -- simpl. rewrite T1, T0. rewrite app_nil_r, <- !app_assoc. reflexivity.
  - etransitivity; [apply try_thrown|reflexivity].
    apply bind_thrown. unfold exec, emit, modify, call_world, bind. simpl.
    now rewrite Ex.
Qed.

(** X6.  [stopOne] is the handling of one application by
    [stopApplications].  When the shutdown command throws, nothing else is
    run and the entry reports the failure with the message of the error.
    When it returns, the entry reports success whatever happens next: the
    process is looked for at most [maxAttempts] times, half a second being
    left to it each time it is found; the forced kill is issued exactly
    when it was found [maxAttempts] times in a row, and never before; a
    failure of the forced kill is ignored. *)
Theorem stopOne_force_kill app s :
  let shutdown := Shell (shutdownCommand app) mountPath in
  match execSync P shutdown (world s) with
  | (Thrown e, w) =>
      stopOne P app s =
        (Returned {| application := app_name app;
                     ar_success := false;
                     ar_message := "Failed to stop " +:+ app_name app +:+ ": "
                                     +:+ message e |},
         with_world P w (with_event P (EvExec shutdown) s))
  | (Returned _, _) =>
      exists k s' tail,
        stopOne P app s =
          (Returned {| application := app_name app;
                       ar_success := true;
                       ar_message := app_name app +:+ " stopped successfully" |},
           s') /\
        (k <= maxAttempts)%nat /\
        trace s' = trace s ++ EvExec shutdown :: termTrace k ++ tail /\
        if (k <? maxAttempts)%nat then tail = [EvExec (Pgrep nodeServer)]
        else tail = [EvExec (Pkill9 nodeServer)] \/
             tail = [EvExec (Pkill9 nodeServer); EvSleep 1000]
  end.
Proof. apply stopOne_run. Qed.

Lemma stopOne_stopped app s :
  exists r s', stopOne P app s = (Returned r, s') /\ stopped app r.
Proof.
  pose proof (stopOne_run app s) as H. cbv zeta in H.
  destruct (execSync P _ (world s)) as [[o|e] w].
  - destruct H as (k & s' & tail & E & _). eexists _, s'. split; [exact E|].
    split; [reflexivity|]. left. split; reflexivity.
  - eexists _, _. split; [exact H|].
    split; [reflexivity|]. right. split; [reflexivity|]. now exists e.
Qed.

Lemma stopEach_spec apps acc s :
  exists rs s',
    stopEach P apps acc s = (Returned (acc ++ rs), s') /\
    Forall2 stopped (List.filter stoppable apps) rs.
Proof.
  revert acc s. induction apps as [|app rest IH]; intros acc s.
  - exists [], s. simpl. rewrite app_nil_r. split; [reflexivity|constructor].
  - simpl. unfold stoppable at 1.
    destruct (truthy_string (shutdownCommand app)).
    + destruct (stopOne_stopped app s) as (r & s1 & E1 & Hr).
      destruct (IH (acc ++ [r]) s1) as (rs & s' & E & F).
      exists (r :: rs), s'. split; [|constructor; assumption].
      erewrite bind_returned.
      2:{ erewrite bind_returned by exact E1. reflexivity. }
      rewrite E, <- app_assoc. reflexivity.
    + erewrite bind_returned by reflexivity. apply IH.
Qed.

(** X7.  [stopApplications] never throws, and it does not ask whether the
    container is mounted.  Without a readable configuration it returns no
    entry and runs nothing more.  Otherwise it takes the applications of
    the configuration in order and returns one entry per application that
    has a shutdown command, in the same order; an application whose
    shutdown throws gets an entry with [success = false] and the message of
    the error, and the applications after it are stopped all the same. *)
Theorem stopApplications_entries name s :
  exists status s1,
    getContainerStatus P name s = (Returned status, s1) /\
    match config status with
    | None => stopApplications P name s = (Returned [], s1)
    | Some cfg =>
        exists results s2,
          stopApplications P name s = (Returned results, s2) /\
          Forall2 stopped (List.filter stoppable (applications cfg)) results
    end.
Proof.
  destruct (returns_getContainerStatus name s) as (status & s1 & Es).
  exists status, s1. split; [exact Es|].
  unfold stopApplications. erewrite bind_returned by exact Es.
  destruct (config status) as [cfg|]; [|reflexivity].
  destruct (stopEach_spec (applications cfg) [] s1) as (rs & s2 & E & F).
  simpl in E.
  destruct (stopActivityMonitoring_spec s2) as (s3 & E3 & _).
  eexists rs, _. split; [|exact F].
  erewrite bind_returned by exact E.
  erewrite bind_returned by exact E3. reflexivity.
Qed.
(** ** The steps of the unmount *)

Lemma exec_run c (s : St P) :
  exec P c s =
    let '(r, w) := execSync P c (world s) in
    (r, with_world P w (with_event P (EvExec c) s)).
Proof. unfold exec, emit, modify, call_world, bind. reflexivity. Qed.

(** X8.  The steps of [unmountContainer] after the applications were
    stopped: [umount] comes first.  When it throws, the error is reported
    on the console and nothing else is run: the mapping is not closed and
    no loop device is looked for.  When it returns, the mapping is closed;
    when that throws, the error is reported and no loop device is looked
    for.  When both returned, the loop devices of the backing file are
    listed and the first one listed, if any, is detached: one device at
    most, a failure being ignored.  In every case the steps return. *)
Theorem unmountSteps_order name s :
  let umount := Umount (mountPointOf name) in
  let close := LuksClose (deviceNameOf name) in
  let report := fun e => EvConsoleError ("Error during unmount steps: "
                                         +:+ message e) in
  exists s' post,
    unmountSteps P name s = (Returned tt, s') /\
    trace s' = trace s ++ EvExec umount :: post /\
    match execSync P umount (world s) with
    | (Thrown e, _) => post = [report e]
    | (Returned _, w) =>
        match execSync P close w with
        | (Thrown e, _) => post = [EvExec close; report e]
        | (Returned _, _) =>
            exists detach,
              post = EvExec close
                       :: EvExec (LosetupAssoc (containerFileOf name)) :: detach /\
              (detach = [] \/ exists dev, detach = [EvExec (LosetupDetach dev)])
        end
    end.
Proof.
  cbv zeta. unfold unmountSteps.
  set (umount := Umount (mountPointOf name)).
  set (close := LuksClose (deviceNameOf name)).
  pose proof (exec_run umount s) as E1.
  destruct (execSync P umount (world s)) as [[o1|e1] w1].
  - set (s1 := with_world P w1 (with_event P (EvExec umount) s)) in E1.
    pose proof (exec_run close s1) as E2. simpl in E2.
    destruct (execSync P close w1) as [[o2|e2] w2].
    + set (s2 := with_world P w2 (with_event P (EvExec close) s1)) in E2.
      destruct (detach_attempt (containerFileOf name) s2)
        as (s3 & detach & E3 & T3 & Hd).
      exists s3, (EvExec close :: EvExec (LosetupAssoc (containerFileOf name))
                    :: detach).
      split; [|split; [|exists detach; split; [reflexivity|exact Hd]]].
      * apply try_returned. erewrite bind_returned by exact E1.
        erewrite bind_returned by exact E2. exact E3.
      * rewrite T3. subst s2 s1. simpl. now rewrite <- !app_assoc.
    + eexists _, _. split; [|split; [|reflexivity]].
      * etransitivity; [apply try_thrown|reflexivity].
        erewrite bind_returned by exact E1. apply bind_thrown. exact E2.
      * simpl. now rewrite <- !app_assoc.
  - eexists _, _. split; [|split; [|reflexivity]].
    + etransitivity; [apply try_thrown|reflexivity].
      apply bind_thrown. exact E1.
    + simpl. now rewrite <- !app_assoc.
Qed.
(** ** The installation of SillyTavern *)

Lemma execAll_run cmds (s : St P) :
  exists s',
    trace s' = trace s ++ map EvExec (fst (runAll P cmds (world s))) /\
    execAll cmds s =
      (match snd (runAll P cmds (world s)) with
       | None => Returned tt
       | Some e => Thrown e
       end, s').
Proof.
  revert s. induction cmds as [|c rest IH]; intros s.
  - exists s. simpl. now rewrite app_nil_r.
  - simpl. rewrite (bind_unfold (exec P c)), exec_run.
    destruct (execSync P c (world s)) as [[o|e] w].
    + set (s1 := with_world P w (with_event P (EvExec c) s)).
      destruct (IH s1) as (s' & T & E). exists s'.
      change (world s1) with w in T, E.
      destruct (runAll P rest w) as [ran failure]. simpl in *.
      split; [|exact E]. rewrite T. simpl. now rewrite <- app_assoc.
    + exists (with_world P w (with_event P (EvExec c) s)). split; reflexivity.
Qed.

Lemma runAll_prefix cmds (w : World P) :
  exists n,
    fst (runAll P cmds w) = take n cmds /\
    match snd (runAll P cmds w) with
    | None => n = length cmds
    | Some _ => (1 <= n <= length cmds)%nat
    end.
Proof.
  revert w. induction cmds as [|c rest IH]; intros w; simpl.
  - exists 0%nat. split; reflexivity.
  - destruct (execSync P c w) as [[o|e] w'].
    + destruct (IH w') as (n & Hn & Hl).
      destruct (runAll P rest w') as [ran failure]. simpl in *.
      exists (S n). split; [simpl; now rewrite Hn|].
      destruct failure; lia.
    + exists 1%nat. simpl. split; [now rewrite take_0|lia].
Qed.

(** X9.  [setupSillyTavern] installs SillyTavern once.  When its directory
    exists in the mount point, nothing is run and nothing changes.
    Otherwise it runs the six commands of the installation in order
    (clone, [npm install], [chmod], three edits of the configuration) up to
    the first one that throws: it returns when none did, and else reports
    the error on the console and throws that same error again, the
    commands after the failed one not being run. *)
Theorem setupSillyTavern_spec containerName mountPoint s :
  let sillyTavernPath := path_join mountPoint "sillytavern" in
  let cmds := installCommands sillyTavernPath in
  if pathExists P sillyTavernPath (world s) then
    setupSillyTavern P containerName mountPoint s = (Returned tt, s)
  else
    exists n s',
      match snd (runAll P cmds (world s)) with
      | None =>
          n = length cmds /\
          setupSillyTavern P containerName mountPoint s = (Returned tt, s') /\
          trace s' = trace s ++ map EvExec cmds
      | Some e =>
          (1 <= n <= length cmds)%nat /\
          setupSillyTavern P containerName mountPoint s = (Thrown e, s') /\
          trace s' = trace s ++ map EvExec (take n cmds)
                       ++ [EvConsoleError ("Error setting up SillyTavern: "
                                           +:+ message e)]
      end.
Proof.
  cbv zeta. unfold setupSillyTavern.
  erewrite bind_returned by reflexivity. cbv beta.
  destruct (pathExists P _ (world s)); [reflexivity|].
  set (cmds := installCommands (path_join mountPoint "sillytavern")).
  destruct (execAll_run cmds s) as (s1 & T & E).
  destruct (runAll_prefix cmds (world s)) as (n & Hn & Hl).
  rewrite Hn in T. exists n.
  destruct (snd (runAll P cmds (world s))) as [e|].
  - eexists. split; [exact Hl|]. split.
    + etransitivity; [apply try_thrown; exact E|]. reflexivity.
    + simpl. rewrite T. now rewrite <- app_assoc.
  - exists s1. split; [exact Hl|]. split.
    + apply try_returned. exact E.
    + rewrite T, Hl. now rewrite firstn_all.
Qed.
(** ** mountContainer *)

Lemma bind_returned_inv {A B} (m : Comp (St P) A) (k : A -> Comp (St P) B)
    s b s' :
  bind m k s = (Returned b, s') ->
  exists a s1, m s = (Returned a, s1) /\ k a s1 = (Returned b, s').
Proof.
  unfold bind. destruct (m s) as [[a|e] s1]; [eauto|discriminate].
Qed.

Lemma mountBody_result name password (s : St P) r s' :
  (out <- exec P (LosetupFindShow (containerFileOf name)) ;;
   exec P (LuksOpenEcho password (trim out) (deviceNameOf name)) ;;
   exec P (MountDev (deviceNameOf name) (mountPointOf name)) ;;
   setupSillyTavern P name (mountPointOf name) ;;
   ret {| mr_success := true;
          mr_message := "Container " +:+ name +:+ " mounted successfully";
          mr_mountPoint := mountPointOf name |}) s = (Returned r, s') ->
  r = {| mr_success := true;
         mr_message := "Container " +:+ name +:+ " mounted successfully";
         mr_mountPoint := mountPointOf name |}.
Proof.
  intros H.
  apply bind_returned_inv in H as (? & ? & _ & H).
  apply bind_returned_inv in H as (? & ? & _ & H).
  apply bind_returned_inv in H as (? & ? & _ & H).
  apply bind_returned_inv in H as (? & ? & _ & H).
  now injection H.
Qed.

Lemma mountBody_releases_nothing name password :
  respects (extends_with releasesNothing)
    (try_catch
       (out <- call_world P (execSync P (LosetupFindShow (containerFileOf name))) ;;
        exec P (LuksOpenEcho password (trim out) (deviceNameOf name)) ;;
        exec P (MountDev (deviceNameOf name) (mountPointOf name)) ;;
        setupSillyTavern P name (mountPointOf name) ;;
        ret {| mr_success := true;
               mr_message := "Container " +:+ name +:+ " mounted successfully";
               mr_mountPoint := mountPointOf name |})
       (fun error =>
          consoleError P ("Error mounting container " +:+ name +:+ ": "
                          +:+ message error) ;;
          throw (Error ("Failed to mount container: " +:+ message error)))).
Proof.
  unfold setupSillyTavern, fs_pathExists, exec, consoleError.
  extends_auto (anyEvent_true releasesNothing).
Qed.

(** X10.  [mountContainer] has four outcomes.  The backing file is
    missing: the does-not-exist error, nothing being run.  The mount point
    cannot be made: the error of [ensureDir], as it is.  Otherwise a
    mapping left over is closed, a loop device is attached to the file, and
    from there on the call releases nothing, whether it succeeds or fails:
    it closes no mapping, detaches no loop device, unmounts and removes
    nothing.  It then either returns the success object with the mount
    point, or reports the error of the step that threw on the console and
    throws an [Error] whose message is that of the step behind the
    words Failed to mount container. *)
Theorem mountContainer_outcomes name password s :
  let containerFile := containerFileOf name in
  let mountPoint := mountPointOf name in
  if pathExists P containerFile (world s) then
    match ensureDir P mountPoint (world s) with
    | (Thrown e, w) =>
        mountContainer P name password s =
          (Thrown e, with_world P w (with_event P (EvEnsureDir mountPoint) s))
    | (Returned _, _) =>
        exists outcome s' rest,
          mountContainer P name password s = (outcome, s') /\
          trace s' = trace s
                       ++ EvEnsureDir mountPoint
                       :: EvExec (LuksClose (deviceNameOf name))
                       :: EvExec (LosetupFindShow containerFile) :: rest /\
          forallb releasesNothing rest = true /\
          match outcome with
          | Returned result =>
              result =
                {| mr_success := true;
                   mr_message := "Container " +:+ name +:+ " mounted successfully";
                   mr_mountPoint := mountPoint |}
          | Thrown error =>
              exists e,
                error = Error ("Failed to mount container: " +:+ message e) /\
                last (trace s') =
                  Some (EvConsoleError ("Error mounting container " +:+ name
                                        +:+ ": " +:+ message e))
          end
    end
  else
    mountContainer P name password s =
      (Thrown (Error ("Container " +:+ name +:+ " does not exist")), s).
Proof.
  cbv zeta.
  destruct (pathExists P (containerFileOf name) (world s)) eqn:Hex.
  2:{ unfold mountContainer. erewrite bind_returned by reflexivity.
      cbv beta. now rewrite Hex. }
  assert (E1 : fs_ensureDir P (mountPointOf name) s =
               let '(r, w) := ensureDir P (mountPointOf name) (world s) in
               (r, with_world P w (with_event P (EvEnsureDir (mountPointOf name)) s)))
    by reflexivity.
  destruct (ensureDir P (mountPointOf name) (world s)) as [[[]|e] w].
  2:{ unfold mountContainer. erewrite bind_returned by reflexivity.
      cbv beta. rewrite Hex. apply bind_thrown. exact E1. }
  cbv beta iota in E1.
  set (s1 := with_world P w _) in E1.
  destruct (luksClose_attempt (deviceNameOf name) s1) as (s2 & E2 & T2).
  set (find := EvExec (LosetupFindShow (containerFileOf name))).
  set (handler := fun error : JsError =>
         consoleError P ("Error mounting container " +:+ name +:+ ": "
                         +:+ message error) ;;
         (throw (Error ("Failed to mount container: " +:+ message error))
            : Comp (St P) MountResult)).
  set (body := out <- exec P (LosetupFindShow (containerFileOf name)) ;;
               exec P (LuksOpenEcho password (trim out) (deviceNameOf name)) ;;
               exec P (MountDev (deviceNameOf name) (mountPointOf name)) ;;
               setupSillyTavern P name (mountPointOf name) ;;
               ret {| mr_success := true;
                      mr_message := "Container " +:+ name +:+ " mounted successfully";
                      mr_mountPoint := mountPointOf name |}).
  assert (Em : mountContainer P name password s = try_catch body handler s2).
  { unfold mountContainer. erewrite bind_returned by reflexivity.
    cbv beta. rewrite Hex. change (negb true) with false. cbv iota.
    erewrite bind_returned by exact E1.
    erewrite bind_returned by exact E2. reflexivity. }
  pose proof (mountBody_releases_nothing name password (with_event P find s2))
    as R.
  change (extends_with releasesNothing (with_event P find s2)
            (snd (try_catch body handler s2))) in R.
  rewrite Em.
  destruct (try_catch body handler s2) as [outcome s'] eqn:E3.
  destruct R as (rest & T & Q). simpl in T.
  exists outcome, s', rest. split; [reflexivity|].
  split; [|split; [exact Q|]].
  - rewrite T, T2. subst s1. simpl. now rewrite <- !app_assoc.
  - revert E3. unfold try_catch.
    destruct (body s2) as [[r|e] s3] eqn:Eb.
    + intros E. injection E as <- <-. eapply mountBody_result. exact Eb.
    + unfold handler, consoleError, emit, modify, bind, throw. intros E.
      injection E as <- <-. exists e. split; [reflexivity|]. apply last_snoc.
Qed.
(** ** createContainer, when the volume was initialised *)

Lemma exec_trace c (s : St P) r s' :
  exec P c s = (r, s') -> trace s' = trace s ++ [EvExec c].
Proof.
  rewrite exec_run. destruct (execSync P c (world s)) as [r0 w].
  intros E. injection E as _ <-. reflexivity.
Qed.

Lemma createSteps_trace name password sizeGB (s : St P) s' :
  createSteps P name password sizeGB s = (Returned tt, s') ->
  exists out,
    trace s' =
      trace s
        ++ map EvExec
             [ DdZero (containerFileOf name) (sizeGB * 1024);
               LosetupFindShow (containerFileOf name);
               LuksFormat (trim out) password;
               LuksOpenStdin (trim out) (deviceNameOf name) password;
               MkfsExt4 (deviceNameOf name);
               LuksClose (deviceNameOf name);
               LosetupDetach (trim out) ].
Proof.
  unfold createSteps. intros H.
  apply bind_returned_inv in H as (? & s1 & H1 & H).
  apply bind_returned_inv in H as (out & s2 & H2 & H).
  apply bind_returned_inv in H as (? & s3 & H3 & H).
  apply bind_returned_inv in H as (? & s4 & H4 & H).
  apply bind_returned_inv in H as (? & s5 & H5 & H).
  apply bind_returned_inv in H as (? & s6 & H6 & H).
  apply bind_returned_inv in H as (? & s7 & H7 & H).
  injection H as <-. exists out.
  apply exec_trace in H1, H2, H3, H4, H5, H6, H7.
  rewrite H7, H6, H5, H4, H3, H2, H1. simpl.
  repeat (rewrite <- app_assoc; simpl). reflexivity.
Qed.

(** X11.  [createContainer] on a name whose backing file does not exist,
    when the initialisation of the volume goes through.  The commands of
    the initialisation are, in order: [dd] of [sizeGB * 1024] blocks of one
    MiB, [losetup -f --show], then [luksFormat], [luksOpen], [mkfs.ext4],
    [luksClose] and [losetup -d], the loop device formatted, opened and
    detached being the one [losetup] printed, trimmed.  The configuration
    written next holds the name, the time of the clock, the SillyTavern
    application and a timeout of 15 minutes.  When the write returns, the
    call returns the success object.  When the write throws, the call
    throws that error as it is, and nothing is cleaned up: the volume stays
    without its sidecar. *)
Theorem createContainer_success name password sizeGB s :
  let containerFile := containerFileOf name in
  let deviceName := deviceNameOf name in
  pathExists P containerFile (world s) = false ->
  exists s0,
    try_catch (exec P (LuksClose deviceName) ;; ret tt) (fun _ => ret tt) s
      = (Returned tt, s0) /\
    forall s1,
      createSteps P name password sizeGB s0 = (Returned tt, s1) ->
      (exists out,
         trace s1 =
           trace s0
             ++ map EvExec
                  [ DdZero containerFile (sizeGB * 1024);
                    LosetupFindShow containerFile;
                    LuksFormat (trim out) password;
                    LuksOpenStdin (trim out) deviceName password;
                    MkfsExt4 deviceName;
                    LuksClose deviceName;
                    LosetupDetach (trim out) ]) /\
      let cfg := defaultConfig name (clock P (world s1)) in
      let written :=
        fun w => with_world P w
                   (with_event P (EvWriteJSON (configFileOf name) cfg) s1) in
      autoUnmountTimeout cfg = Some 15 /\
      map app_name (applications cfg) = ["SillyTavern"] /\
      match writeJSON P (configFileOf name) cfg (world s1) with
      | (Returned _, w) =>
          createContainer P name password sizeGB s =
            (Returned {| cr_success := true;
                         cr_message := "Container " +:+ name
                                         +:+ " created successfully";
                         cr_container := name |},
             written w)
      | (Thrown e, w) =>
          createContainer P name password sizeGB s = (Thrown e, written w)
      end.
Proof.
  cbv zeta. intros Hex.
  destruct (luksClose_attempt (deviceNameOf name) s) as (s0 & E0 & T0).
  exists s0. split; [exact E0|]. intros s1 Ec.
  split; [eapply createSteps_trace; exact Ec|].
  split; [reflexivity|]. split; [reflexivity|].
  assert (Ew : forall cfg,
             fs_writeJSON P (configFileOf name) cfg s1 =
             let '(r, w) := writeJSON P (configFileOf name) cfg (world s1) in
             (r, with_world P w
                   (with_event P (EvWriteJSON (configFileOf name) cfg) s1)))
    by reflexivity.
  specialize (Ew (defaultConfig name (clock P (world s1)))).
  assert (Eq : createContainer P name password sizeGB s =
               (fs_writeJSON P (configFileOf name)
                  (defaultConfig name (clock P (world s1))) ;;
                ret {| cr_success := true;
                       cr_message := "Container " +:+ name
                                       +:+ " created successfully";
                       cr_container := name |}) s1).
  { unfold createContainer. erewrite bind_returned by reflexivity.
    cbv beta. rewrite Hex. cbv iota.
    erewrite bind_returned by exact E0.
    erewrite bind_returned by (apply try_returned; exact Ec).
    erewrite bind_returned by reflexivity. reflexivity. }
  rewrite Eq.
  destruct (writeJSON P (configFileOf name) _ (world s1)) as [[[]|e] w].
  - erewrite bind_returned by exact Ew. reflexivity.
  - apply bind_thrown. exact Ew.
Qed.
(** ** The timeout of the inactivity check *)

(** X12.  The timeout [checkForInactivity] works with is never 0: it is
    the [autoUnmountTimeout] of the configuration when there is a readable
    configuration and the value is not 0, and 15 minutes in every other
    case (no container, no configuration, no value, or the value 0, which
    therefore does not switch the auto-dismount off nor make it
    immediate).  Reading it never throws. *)
Theorem readTimeout_never_zero name s :
  exists status s1 minutes,
    getContainerStatus P name s = (Returned status, s1) /\
    readTimeout P name s = (Returned minutes, s1) /\
    minutes <> 0 /\
    minutes =
      match config status with
      | Some cfg =>
          match autoUnmountTimeout cfg with
          | Some n => if n =? 0 then 15 else n
          | None => 15
          end
      | None => 15
      end.
Proof.
  destruct (returns_getContainerStatus name s) as (status & s1 & Es).
  exists status, s1. eexists. split; [exact Es|]. split.
  - unfold readTimeout. apply try_returned.
    erewrite bind_returned by exact Es. reflexivity.
  - unfold configuredTimeout, truthy_number, inactivityTimeoutMinutes.
    destruct (config status) as [cfg|]; [|split; [lia|reflexivity]].
    destruct (autoUnmountTimeout cfg) as [n|]; [|split; [lia|reflexivity]].
    destruct (n =? 0) eqn:En; simpl; [split; [lia|reflexivity]|].
    apply Z.eqb_neq in En. split; [exact En|reflexivity].
Qed.

(** ** The monitoring state is touched by start and stop only *)

Lemma isSillyTavernRunning_kept : respects monitoringKept (isSillyTavernRunning P).
Proof. unfold isSillyTavernRunning. kept_auto. Qed.

Lemma verifyContainerPassword_kept name password :
  respects monitoringKept (verifyContainerPassword P name password).
Proof. unfold verifyContainerPassword, fs_pathExists, exec. kept_auto. Qed.

Lemma createContainer_kept name password sizeGB :
  respects monitoringKept (createContainer P name password sizeGB).
Proof.
  unfold createContainer, createSteps, createCleanup, fs_pathExists,
    fs_remove, fs_writeJSON, newDate, exec, consoleError. kept_auto.
Qed.

Lemma mountContainer_kept name password :
  respects monitoringKept (mountContainer P name password).
Proof.
  unfold mountContainer, setupSillyTavern, fs_pathExists, fs_ensureDir, exec,
    consoleError. kept_auto.
Qed.

Lemma getPrimaryContainer_kept : respects monitoringKept (getPrimaryContainer P).
Proof.
  pose proof getContainerStatus_kept.
  unfold getPrimaryContainer, isSillyTavernRunning, newDate. kept_auto.
Qed.

Lemma unmountSteps_kept name : respects monitoringKept (unmountSteps P name).
Proof. unfold unmountSteps, exec, consoleError. kept_auto. Qed.

(** X13.  The monitoring state of the service (the activity records, the
    interval it holds, the timers) is left as it is by [createContainer],
    [mountContainer], [verifyContainerPassword], [getContainerStatus],
    [getPrimaryContainer], [isSillyTavernRunning] and by the steps of the
    unmount that follow the stop of the applications, whether they return
    or throw: mounting a container does not start its monitoring, and
    asking for its status does not count as activity. *)
Theorem monitoring_untouched name password sizeGB :
  respects monitoringKept (createContainer P name password sizeGB) /\
  respects monitoringKept (mountContainer P name password) /\
  respects monitoringKept (verifyContainerPassword P name password) /\
  respects monitoringKept (getContainerStatus P name) /\
  respects monitoringKept (getPrimaryContainer P) /\
  respects monitoringKept (isSillyTavernRunning P) /\
  respects monitoringKept (unmountSteps P name).
Proof.
  split; [apply createContainer_kept|].
  split; [apply mountContainer_kept|].
  split; [apply verifyContainerPassword_kept|].
  split; [apply getContainerStatus_kept|].
  split; [apply getPrimaryContainer_kept|].
  split; [apply isSillyTavernRunning_kept | apply unmountSteps_kept].
Qed.
(** ** The routes *)

Lemma handler_reply {A} (m : Comp (St P) A) s :
  try_catch (a <- m ;; ret (Json a)) (serverError P) s = reply (m s).
Proof.
  unfold try_catch, bind, serverError, ret, reply.
  destruct (m s) as [[a|e] s']; reflexivity.
Qed.

(** X14.  No handler lets an error out, and each answers in one of three
    ways.  A request without the fields it needs is answered 400 and the
    service is not called, so that nothing is run and nothing changes: no
    password for [mount] and [verify-password]; no password, no size or the
    size 0 for [create].  Otherwise the service is called once, and the
    answer is its result with status 200 when it returned, and the message
    of its error with status 500 when it threw. *)
Theorem route_replies password size s :
  postCreate P password size s =
    match size with
    | Some sizeGB =>
        if truthy_string password && truthy_number sizeGB then
          reply (createContainer P "primary" password sizeGB s)
        else
          (Returned (Refused 400 "Missing required fields: password, size"), s)
    | None =>
        (Returned (Refused 400 "Missing required fields: password, size"), s)
    end /\
  postMount P password s =
    (if truthy_string password then
       reply (mountContainer P "primary" password s)
     else (Returned (Refused 400 "Password required"), s)) /\
  postVerifyPassword P password s =
    (if truthy_string password then
       reply (verifyContainerPassword P "primary" password s)
     else (Returned (Refused 400 "Password required"), s)) /\
  postStart P s = reply (startApplications P "primary" s) /\
  postStop P s = reply (stopApplications P "primary" s) /\
  postUnmount P s = reply (unmountContainer P "primary" s) /\
  getSillyTavernStatus P s = reply (isSillyTavernRunning P s) /\
  getPrimary P s = reply (getPrimaryContainer P s).
Proof.
  split; [|split; [|split]].
  - unfold postCreate. destruct size as [sizeGB|]; [|reflexivity].
    destruct (truthy_string password), (truthy_number sizeGB); simpl;
      try reflexivity.
    apply handler_reply.
  - unfold postMount. destruct (truthy_string password); simpl;
      [apply handler_reply|reflexivity].
  - unfold postVerifyPassword. destruct (truthy_string password); simpl;
      [apply handler_reply|reflexivity].
  - repeat split; apply handler_reply.
Qed.

Lemma getContainerStatus_missing name s :
  pathExists P (containerFileOf name) (world s) = false ->
  getContainerStatus P name s = (Returned missingStatus, s).
Proof.
  intros H. unfold getContainerStatus.
  erewrite bind_returned by reflexivity. cbv beta. rewrite H.
  reflexivity.
Qed.

(** X15.  The routes before the primary container was created (its backing
    file does not exist).  [mount], [verify-password] and [DELETE], given a
    password, answer 500 with the does-not-exist message; for [DELETE] this
    is not the 401 of a wrong password.  [start] answers 500 with the
    not-mounted message.  [stop] answers 200 with no entry.  In all five
    cases nothing is run and nothing changes.  [unmount] answers 200 with
    the success object all the same. *)
Theorem routes_before_creation password s :
  pathExists P (containerFileOf "primary") (world s) = false ->
  truthy_string password = true ->
  postMount P password s =
    (Returned (Refused 500 "Container primary does not exist"), s) /\
  postVerifyPassword P password s =
    (Returned (Refused 500 "Container primary does not exist"), s) /\
  deletePrimary P password s =
    (Returned {| status := 500;
                 body := ErrorBody "Container primary does not exist" |}, s) /\
  postStart P s =
    (Returned (Refused 500 "Container primary is not mounted"), s) /\
  postStop P s = (Returned (Json []), s) /\
  exists s',
    postUnmount P s =
      (Returned
         (Json {| ur_success := true;
                  ur_message := "Container primary unmounted successfully" |}),
       s').
Proof.
  intros Hex Hpw.
  pose proof (getContainerStatus_missing "primary" s Hex) as Es.
  assert (Ev : verifyContainerPassword P "primary" password s =
               (Thrown (Error "Container primary does not exist"), s)).
  { unfold verifyContainerPassword. erewrite bind_returned by reflexivity.
    cbv beta. now rewrite Hex. }
  assert (Estop : stopApplications P "primary" s = (Returned [], s)).
  { unfold stopApplications. erewrite bind_returned by exact Es. reflexivity. }
  split; [|split; [|split; [|split; [|split]]]].
  - unfold postMount, primaryContainerName. rewrite Hpw. simpl.
    rewrite handler_reply. unfold mountContainer.
    erewrite bind_returned by reflexivity. cbv beta. now rewrite Hex.
  - unfold postVerifyPassword, primaryContainerName. rewrite Hpw. simpl.
    now rewrite handler_reply, Ev.
  - unfold deletePrimary. rewrite Hpw. simpl.
    etransitivity; [apply try_thrown; apply bind_thrown; exact Ev|reflexivity].
  - unfold postStart, primaryContainerName. rewrite handler_reply.
    unfold startApplications. erewrite bind_returned by exact Es. reflexivity.
  - unfold postStop, primaryContainerName. now rewrite handler_reply, Estop.
  - destruct (returns_unmountSteps "primary" s) as ([] & s' & Eu).
    exists s'. unfold postUnmount, primaryContainerName. rewrite handler_reply.
    unfold unmountContainer. erewrite bind_returned by exact Estop.
    erewrite bind_returned by exact Eu. reflexivity.
Qed.
(** ** listContainers *)

Lemma existsb_eqb_elem name (names : list string) :
  existsb (String.eqb name) names = true <-> name ∈ names.
Proof.
  rewrite existsb_exists. split.
  - intros (x & Hin & Heq). apply String.eqb_eq in Heq. subst x.
    now apply list_elem_of_In.
  - intros H. exists name. split; [now apply list_elem_of_In|].
    apply String.eqb_refl.
Qed.

Lemma addName_elem name (names : list string) n :
  n ∈ addName name names <-> n ∈ names \/ n = name.
Proof.
  unfold addName. destruct (existsb (String.eqb name) names) eqn:E.
  - apply existsb_eqb_elem in E.
    split; [now left|]. intros [H| ->]; assumption.
  - rewrite elem_of_app, list_elem_of_singleton. reflexivity.
Qed.

Lemma addName_NoDup name (names : list string) :
  NoDup names -> NoDup (addName name names).
Proof.
  intros Hnd. unfold addName.
  destruct (existsb (String.eqb name) names) eqn:E; [exact Hnd|].
  apply NoDup_app. split; [exact Hnd|]. split; [|apply NoDup_singleton].
  intros x Hx Hx'. apply list_elem_of_singleton in Hx'. subst x.
  apply existsb_eqb_elem in Hx. congruence.
Qed.

Lemma collect_NoDup ext files (names : list string) :
  NoDup names -> NoDup (collect ext files names).
Proof.
  revert names. induction files as [|file rest IH]; intros names Hnd; simpl;
    [exact Hnd|].
  apply IH. destruct (endsWith ext file); [now apply addName_NoDup|exact Hnd].
Qed.

Lemma collect_elem ext files (names : list string) n :
  n ∈ collect ext files names <->
  n ∈ names \/
  exists file, file ∈ files /\ endsWith ext file = true /\ n = basename file ext.
Proof.
  revert names. induction files as [|file rest IH]; intros names; simpl.
  - split; [now left|].
    intros [H|(file & H & _)]; [exact H|]. now apply elem_of_nil in H.
  - rewrite IH. destruct (endsWith ext file) eqn:E.
    + rewrite addName_elem. split.
      * intros [[H| ->]|(f & Hf & He & Hn)].
        -- now left.
        -- right. exists file. split; [apply list_elem_of_here|]. now split.
        -- right. exists f. split; [now apply list_elem_of_further|]. now split.
      * intros [H|(f & Hf & He & Hn)]; [now left; left|].
        apply elem_of_cons in Hf as [->|Hf]; [left; now right|].
        right. exists f. now repeat split.
    + split.
      * intros [H|(f & Hf & He & Hn)]; [now left|].
        right. exists f. split; [now apply list_elem_of_further|]. now split.
      * intros [H|(f & Hf & He & Hn)]; [now left|].
        apply elem_of_cons in Hf as [->|Hf]; [congruence|].
        right. exists f. now repeat split.
Qed.

Section Listing.

Context (readdir : string -> World P -> Outcome (list string)).

Lemma statusEach_spec names acc s :
  exists entries s',
    statusEach P names acc s = (Returned (acc ++ entries), s') /\
    map ce_name entries = names /\
    Forall (fun c => ce_file c = ce_name c +:+ ".vc") entries /\
    extends_with probeEvent s s' /\
    monitoringKept s s'.
Proof.
  revert acc s. induction names as [|name rest IH]; intros acc s.
  - exists [], s. simpl. rewrite app_nil_r.
    repeat split; [constructor|reflexivity].
  - destruct (returns_getContainerStatus name s) as (status & s1 & Es).
    pose proof (getContainerStatus_probes name s) as Hp. rewrite Es in Hp.
    pose proof (getContainerStatus_kept name s) as Hk. rewrite Es in Hk.
    simpl in Hp, Hk.
    set (entry := {| ce_name := name; ce_file := name +:+ ".vc";
                     ce_status := status |}).
    destruct (IH (acc ++ [entry]) s1)
      as (entries & s' & E & Hn & Hf & Hp' & Hk').
    exists (entry :: entries), s'. split; [|split; [|split; [|split]]].
    + simpl. erewrite bind_returned.
      2:{ apply try_returned. erewrite bind_returned by exact Es. reflexivity. }
      fold entry. rewrite E, <- app_assoc. reflexivity.
    + simpl. now rewrite Hn.
    + constructor; [reflexivity|exact Hf].
    + etransitivity; eassumption.
    + etransitivity; eassumption.
Qed.

(** The names [listContainers] takes from a directory: none when the
    directory cannot be read. *)
Lemma listing_names ext dir (names : list string) s :
  exists names',
    try_catch (files <- fs_readdir P readdir dir ;; ret (collect ext files names))
              (fun _ => ret names) s = (Returned names', s) /\
    (NoDup names -> NoDup names') /\
    forall n,
      n ∈ names' <->
      n ∈ names \/
      exists files file,
        readdir dir (world s) = Returned files /\ file ∈ files /\
        endsWith ext file = true /\ n = basename file ext.
Proof.
  unfold try_catch, bind, fs_readdir, read_world, ret.
  destruct (readdir dir (world s)) as [files|e].
  - exists (collect ext files names). split; [reflexivity|].
    split; [apply collect_NoDup|].
    intros n. rewrite collect_elem. split.
    + intros [H|(file & H)]; [now left|]. right. now exists files, file.
    + intros [H|(files' & file & Hf & H)]; [now left|].
      injection Hf as <-. right. now exists file.
  - exists names. split; [reflexivity|]. split; [auto|].
    intros n. split; [now left|].
    intros [H|(files & file & H & _)]; [exact H|discriminate].
Qed.

(** X16.  [listContainers] never throws, even when a directory cannot be
    read: such a directory gives no name.  The names listed are the names
    before the extension of the entries of the containers directory that
    end in [.vc] and of the entries of the data directory that end in
    [.json], so that a sidecar left without its container is listed too.
    A name is listed once, whichever directories it comes from.  Every
    entry carries the file name made of its name and [.vc].  Nothing is run
    but the two commands of the status, and the monitoring state is left
    as it is. *)
Theorem listContainers_spec s :
  exists containers s',
    listContainers P readdir s = (Returned containers, s') /\
    NoDup (map ce_name containers) /\
    Forall (fun c => ce_file c = ce_name c +:+ ".vc") containers /\
    (forall name,
       name ∈ map ce_name containers <->
       (exists files file,
          readdir containersPath (world s) = Returned files /\
          file ∈ files /\ endsWith ".vc" file = true /\
          name = basename file ".vc") \/
       (exists files file,
          readdir dataPath (world s) = Returned files /\
          file ∈ files /\ endsWith ".json" file = true /\
          name = basename file ".json")) /\
    extends_with probeEvent s s' /\
    monitoringKept s s'.
Proof.
  destruct (listing_names ".vc" containersPath [] s) as (n1 & E1 & D1 & I1).
  destruct (listing_names ".json" dataPath n1 s) as (n2 & E2 & D2 & I2).
  destruct (statusEach_spec n2 [] s) as (entries & s' & E3 & Hn & Hf & Hp & Hk).
  exists entries, s'. split; [|split; [|split; [|split; [|split]]]];
    try assumption.
  - unfold listContainers. erewrite bind_returned by exact E1.
    erewrite bind_returned by exact E2. exact E3.
  - rewrite Hn. apply D2, D1. constructor.
  - intros name. rewrite Hn, I2, I1. split.
    + intros [[H|H]|H]; [now apply elem_of_nil in H|now left|now right].
    + intros [H|H]; [left; now right|now right].
Qed.

End Listing.
(** ** The loop device in the output of losetup *)

Lemma append_assoc (a b c : string) : (a +:+ b) +:+ c = a +:+ (b +:+ c).
Proof.
  induction a as [|x a IH]; [reflexivity|].
  change (String x ((a +:+ b) +:+ c) = String x (a +:+ (b +:+ c))).
  now rewrite IH.
Qed.

Lemma strip_prefix_spec p s r : strip_prefix p s = Some r <-> s = p +:+ r.
Proof.
  revert s. induction p as [|a p IH]; intros s; simpl.
  - split; [now intros [= ->]|now intros ->].
  - destruct s as [|b s]; [split; discriminate|].
    destruct (Ascii.eqb a b) eqn:E.
    + apply Ascii.eqb_eq in E. subst b. rewrite IH.
      split; [now intros ->|now intros [= ->]].
    + apply Ascii.eqb_neq in E. split; [discriminate|].
      intros [= H _]. congruence.
Qed.

Lemma span_digits_split s :
  s = fst (span_digits s) +:+ snd (span_digits s) /\
  allDigits (fst (span_digits s)) = true.
Proof.
  induction s as [|c s [IH1 IH2]]; simpl; [now split|].
  destruct (Ascii.is_nat c) eqn:E; [|now split].
  destruct (span_digits s) as [ds tl]. simpl in *.
  rewrite E. split; [change (String c s = String c (ds +:+ tl)); congruence|exact IH2].
Qed.

Lemma span_digits_app ds c rest :
  allDigits ds = true -> Ascii.is_nat c = None ->
  span_digits (ds +:+ String c rest) = (ds, String c rest).
Proof.
  intros Hd Hc. induction ds as [|d ds IH]; simpl in *.
  - now rewrite Hc.
  - destruct (Ascii.is_nat d); [|discriminate]. now rewrite IH.
Qed.

(** X17.  The loop device [unmountContainer] and the clean-up of
    [createContainer] detach is read off the output of [losetup -j] as the
    regular expression of the source reads it: [loopMatch] finds a device
    exactly when the output starts with the words /dev/loop, one decimal
    digit or more, and a colon, and the device is then that start without
    the colon.  So only the device of the first line can be found, and none
    is found in an empty output. *)
Theorem loopMatch_spec out dev :
  loopMatch out = Some dev <->
  exists digits rest,
    digits <> EmptyString /\ allDigits digits = true /\
    dev = "/dev/loop" +:+ digits /\
    out = dev +:+ ":" +:+ rest.
Proof.
  unfold loopMatch. split.
  - destruct (strip_prefix "/dev/loop" out) as [r|] eqn:Ep; [|discriminate].
    apply strip_prefix_spec in Ep.
    destruct (span_digits_split r) as [Hs Hd].
    destruct (span_digits r) as [[|d ds] [|c tl]]; try discriminate.
    destruct (Ascii.eqb c colon) eqn:Ec; [|discriminate].
    apply Ascii.eqb_eq in Ec. subst c. intros [= <-].
    exists (String d ds), tl. simpl in Hs, Hd.
    split; [discriminate|]. split; [exact Hd|]. split; [reflexivity|].
    rewrite Ep, Hs. simpl. rewrite !append_assoc. reflexivity.
  - intros (digits & rest & Hne & Hd & -> & ->).
    assert (Ep : strip_prefix "/dev/loop"
                   (("/dev/loop" +:+ digits) +:+ ":" +:+ rest)
                 = Some (digits +:+ String colon rest)).
    { apply strip_prefix_spec. rewrite !append_assoc. reflexivity. }
    rewrite Ep, span_digits_app by (exact Hd || reflexivity).
    destruct digits as [|d ds]; [congruence|]. reflexivity.
Qed.

End ServiceFacts.

(** * Facts on the reference platform *)

Section IdealFacts.

#[local] Arguments Ideal.samePassphrase : simpl never.
#[local] Arguments Ideal.failed : simpl never.
#[local] Arguments render : simpl never.

(** ** Removal *)





(** ** Passwords and sizes *)









(** ** Running the service step by step *)










(** ** The password round trip *)




(** ** The other claims on the scenarios *)

(** Claim C4 as stated fails: before the container exists,
    [verifyContainerPassword] throws. *)
Lemma verifyContainerPassword_throws :
  verifyContainerPassword Ideal.platform "primary" "secret123"
    Scenario.installed
  = (Thrown (Error "Container primary does not exist"), Scenario.installed).
Proof. reflexivity. Qed.

(** Claim C5 as stated fails: while the applications run,
    [stopActivityMonitoring] stops the monitoring, and the activity record
    of the container is still there afterwards. *)
Lemma stopActivityMonitoring_keeps_record :
  let s' := snd (stopActivityMonitoring Ideal.platform Scenario.runningState) in
  lastActivity Scenario.runningState !! "primary" = Some 0 /\
  activityMonitoringActive s' = false /\
  lastActivity s' !! "primary" = Some 0.
Proof. vm_compute. repeat split. Qed.

(** Claim C8 as stated fails: when the removal of the container file
    throws, the removal of the configuration file, which exists, is not
    attempted, and neither is that of the mount point; the result is a
    success with a warning. *)
Lemma deleteContainer_skips_later_steps :
  let r := deleteContainer Ideal.platform "primary" Scenario.lockedState in
  (exists result,
     fst r = Returned result /\
     dr_success result = true /\
     details result = ["Container unmounted"] /\
     warning result <> None) /\
  Ideal.existsPath (configFileOf "primary") (world Scenario.lockedState) = true /\
  Ideal.existsPath (configFileOf "primary") (world (snd r)) = true /\
  existsb (fun e => match e with
                    | EvRemove path =>
                        String.eqb path (configFileOf "primary")
                        || String.eqb path (mountPointOf "primary")
                    | _ => false
                    end) (trace (snd r)) = false.
Proof.
  vm_compute. split; [|repeat split].
  eexists. repeat split. discriminate.
Qed.

(** Claim C10 on a new installation, where nothing was recorded yet. *)
Lemma checkForInactivity_without_record_witness :
  lastActivity Scenario.installed !! "primary" = None /\
  checkForInactivity Ideal.platform "primary" Scenario.installed
    = (Returned tt, Scenario.installed).
Proof.
  split; [reflexivity|].
  apply checkForInactivity_without_record. reflexivity.
Defined.


(** Claim C5, as amended, while the applications run. *)
Lemma stopActivityMonitoring_effect_witness :
  timersOwned Scenario.runningState /\
  exists s',
    stopActivityMonitoring Ideal.platform Scenario.runningState
      = (Returned tt, s') /\
    activityMonitoringActive s' = false /\
    timers s' = ∅ /\
    lastActivity s' = lastActivity Scenario.runningState.
Proof.
  assert (H : timersOwned Scenario.runningState).
  { intros id n Hl.
    assert (Ht : timers Scenario.runningState = {[0%nat := "primary"]})
      by (vm_compute; reflexivity).
    rewrite Ht in Hl. apply lookup_singleton_Some in Hl as [<- _].
    vm_compute. reflexivity. }
  split; [exact H|].
  exact (proj1 (stopActivityMonitoring_effect Ideal.platform
                  Scenario.runningState H)).
Defined.


End IdealFacts.
